(** * scripts/publish-github-jobs.mjs: a shallow embedding

    The publisher fetches a job feed with retries, groups the records by
    region, renders markdown tables and a JSON export, and writes them to
    three target repositories.  This file embeds the functions of
    [src/scripts/publish-github-jobs.mjs] and states the properties of the
    specification over them.

    Conventions of the embedding.
    - A JavaScript string is the list of its UTF-16 code units ([list N]);
      [js "..."] writes an ASCII literal, other literals are given by their
      code units.
    - A property that may be missing on a record is an [option]; [None] is
      [undefined].  Truthiness ([x || y], [if (x)], [!x]) is written out:
      the empty string and the number 0 are falsy.
    - Numbers are the integers ([Z]): salary bounds, time values in
      milliseconds and counts are integers in the feed.  Non-integral numbers
      are outside the model.
    - What the runtime provides and the script does not define (the parsing
      of date strings by [Date], [JSON.parse], [encodeURIComponent], the
      locale's digit grouping, the clock) is a variable of a section. *)

From stdpp Require Import strings list gmap.
From Stdlib Require Import ZArith NArith Lia Sorting.Sorted.

Local Open Scope Z_scope.

(** ** Strings as code units *)

Abbreviation jsstring := (list N).

Definition js (s : string) : jsstring :=
  map (fun a => Ascii.N_of_ascii a) (String.list_ascii_of_string s).

(** Equality of strings ([===] on two strings). *)
Definition str_eqb (a b : jsstring) : bool := bool_decide (a = b).

(** [WhiteSpace] and [LineTerminator] code units: what [\s] matches and
    what [String.prototype.trim] strips. *)
Definition isSpace (c : N) : bool :=
  ((9 <=? c) && (c <=? 13) || (c =? 32) || (c =? 160) || (c =? 5760)
   || (8192 <=? c) && (c <=? 8202) || (c =? 8232) || (c =? 8233)
   || (c =? 8239) || (c =? 8287) || (c =? 12288) || (c =? 65279))%N.

(** [\d] *)
Definition isDigit (c : N) : bool := ((48 <=? c) && (c <=? 57))%N.

Definition isLower (c : N) : bool := ((97 <=? c) && (c <=? 122))%N.
Definition isUpper (c : N) : bool := ((65 <=? c) && (c <=? 90))%N.

(** [\w] *)
Definition isWord (c : N) : bool :=
  isLower c || isUpper c || isDigit c || (c =? 95)%N.

(** [.] without the [s] flag: anything but a line terminator. *)
Definition isLineTerminator (c : N) : bool :=
  ((c =? 10) || (c =? 13) || (c =? 8232) || (c =? 8233))%N.

Fixpoint dropWhile {A} (p : A -> bool) (l : list A) : list A :=
  match l with
  | [] => []
  | x :: r => if p x then dropWhile p r else l
  end.

Definition trimStart (s : jsstring) : jsstring := dropWhile isSpace s.
Definition trimEnd (s : jsstring) : jsstring := rev (dropWhile isSpace (rev s)).
Definition trim (s : jsstring) : jsstring := trimEnd (trimStart s).

(** [s.slice(0, n)] for [n >= 0]. *)
Definition slice0 (n : nat) (s : jsstring) : jsstring := firstn n s.

(** [parts.join(sep)] *)
Fixpoint join (sep : jsstring) (parts : list jsstring) : jsstring :=
  match parts with
  | [] => []
  | [p] => p
  | p :: r => p ++ sep ++ join sep r
  end.

(** [s.split(sep)] for a one-unit separator: always at least one part. *)
Fixpoint split (sep : N) (s : jsstring) : list jsstring :=
  match s with
  | [] => [[]]
  | c :: r =>
      if (c =? sep)%N then [] :: split sep r
      else match split sep r with
           | [] => [[c]]
           | p :: ps => (c :: p) :: ps
           end
  end.

(** [pre] is a prefix of [s]: the rest, if so. *)
Fixpoint stripPrefix (pre s : jsstring) : option jsstring :=
  match pre, s with
  | [], _ => Some s
  | p :: pre', c :: s' => if (p =? c)%N then stripPrefix pre' s' else None
  | _ :: _, [] => None
  end.

(** Case-insensitive prefix for a lower-case ASCII pattern, as the [i] flag
    does without the [u] flag: a pattern letter matches itself and its
    upper-case form, and no code unit above 127. *)
Definition ciUnit (p c : N) : bool :=
  ((p =? c) || isLower p && (c =? p - 32))%N.

Fixpoint stripPrefixCI (pre s : jsstring) : option jsstring :=
  match pre, s with
  | [], _ => Some s
  | p :: pre', c :: s' => if ciUnit p c then stripPrefixCI pre' s' else None
  | _ :: _, [] => None
  end.

(** ** Numbers to text *)

Fixpoint uint_units (d : Decimal.uint) : jsstring :=
  match d with
  | Decimal.Nil => []
  | Decimal.D0 r => 48%N :: uint_units r
  | Decimal.D1 r => 49%N :: uint_units r
  | Decimal.D2 r => 50%N :: uint_units r
  | Decimal.D3 r => 51%N :: uint_units r
  | Decimal.D4 r => 52%N :: uint_units r
  | Decimal.D5 r => 53%N :: uint_units r
  | Decimal.D6 r => 54%N :: uint_units r
  | Decimal.D7 r => 55%N :: uint_units r
  | Decimal.D8 r => 56%N :: uint_units r
  | Decimal.D9 r => 57%N :: uint_units r
  end.

(** [String(n)] for an integer [n] (below 1e21 in size, where JavaScript
    prints all digits). *)
Definition numToString (n : Z) : jsstring :=
  match n with
  | Z0 => js "0"
  | Zpos p => uint_units (Pos.to_uint p)
  | Zneg p => js "-" ++ uint_units (Pos.to_uint p)
  end.

(** [Math.round(n / d)] for integers [n] and [d > 0]: the quotient rounded
    to the nearest integer, a half rounding up. *)
Definition Math_round_div (n d : Z) : Z := (2 * n + d) / (2 * d).

(** [Math.floor(n / d)] for integers [n] and [d > 0]. *)
Definition Math_floor_div (n d : Z) : Z := n / d.

(** ** Truthiness *)

Definition truthyS (o : option jsstring) : bool :=
  match o with
  | Some (_ :: _) => true
  | _ => false
  end.

Definition truthyZ (o : option Z) : bool :=
  match o with
  | Some n => negb (n =? 0)
  | None => false
  end.

(** [o || d] on an optional string. *)
Definition orS (o : option jsstring) (d : jsstring) : jsstring :=
  match o with
  | Some (c :: r) => c :: r
  | _ => d
  end.

(** [`${o}`]: a missing property prints as [undefined]. *)
Definition tmplS (o : option jsstring) : jsstring :=
  match o with
  | Some s => s
  | None => js "undefined"
  end.

(** ** The job record (the [d] payload of a [job] envelope) *)

Record Job := mkJob {
  id_ : option jsstring;
  title : option jsstring;
  company : option jsstring;
  region : option jsstring;
  isRemote : bool;
  location : option jsstring;
  salary : option jsstring;
  salaryMin : option Z;
  salaryMax : option Z;
  skills : option jsstring;
  seniority : option jsstring;
  ats : option jsstring;
  verifiedAt : option jsstring;
  scrapedAt : option jsstring;
  visibility : option jsstring
}.

Definition REF : jsstring := js "github".

(** ** Formatting helpers *)

(** [fmtK(n)] *)
Definition fmtK (n : Z) : jsstring :=
  if 1000 <=? n then js "$" ++ numToString (Math_round_div n 1000) ++ js "k"
  else js "$" ++ numToString n.

(** The en dash of the range form, U+2013. *)
Definition enDash : jsstring := [8211%N].

(** The value of a present number. *)
Definition numZ (o : option Z) : Z := default 0 o.

(** [fmtSalary(job)]: the numeric cases in the order of the source. *)
Definition fmtSalary (job : Job) : jsstring :=
  let lo := salaryMin job in
  let hi := salaryMax job in
  if truthyZ lo && truthyZ hi && bool_decide (lo = hi) then
    fmtK (numZ lo) ++ js "/year"
  else if truthyZ lo && truthyZ hi then
    fmtK (numZ lo) ++ enDash ++ fmtK (numZ hi) ++ js "/year"
  else if truthyZ lo then fmtK (numZ lo) ++ js "+/year"
  else if truthyZ hi then fmtK (numZ hi) ++ js "/year"
  else [].

(** [String.prototype.toLowerCase], one code unit at a time.  The entries are
    the code units whose lower-case form contains an ASCII letter: [A]-[Z],
    U+0130 (dotted capital I, two units) and U+212A (the Kelvin sign).  Every
    other unit is left as it is: its lower-case form has no unit in
    [a-z0-9], and [slugify] and [normalizeName] discard such units, so both
    are the source's on every string; the third caller lowers a region
    code, which is ASCII. *)
Definition lowerUnit (c : N) : jsstring :=
  if isUpper c then [(c + 32)%N]
  else if (c =? 304)%N then [105%N; 775%N]
  else if (c =? 8490)%N then [107%N]
  else [c].

Definition toLowerCase (s : jsstring) : jsstring := concat (map lowerUnit s).

(** [[a-z0-9]] *)
Definition isSlugUnit (c : N) : bool := isLower c || isDigit c.

Definition dash : N := 45%N.

(** [.replace(/[^a-z0-9]+/g, '-')]: every maximal run of other units becomes
    one dash; [inRun] says that the dash of the current run is written. *)
Fixpoint dashRunsFrom (inRun : bool) (s : jsstring) : jsstring :=
  match s with
  | [] => []
  | c :: r =>
      if isSlugUnit c then c :: dashRunsFrom false r
      else if inRun then dashRunsFrom true r
      else dash :: dashRunsFrom true r
  end.

Definition dashRuns (s : jsstring) : jsstring := dashRunsFrom false s.

(** [.replace(/^-+|-+$/g, '')] *)
Definition stripDashes (s : jsstring) : jsstring :=
  rev (dropWhile (N.eqb dash) (rev (dropWhile (N.eqb dash) s))).

(** [slugify(text)] *)
Definition slugify (text : jsstring) : jsstring :=
  slice0 80 (stripDashes (dashRuns (toLowerCase text))).

(** [jobUrl(job)] *)
Definition jobUrl (job : Job) : jsstring :=
  let slug := slugify (tmplS (title job) ++ js " at " ++ tmplS (company job)) in
  js "https://wagey.gg/jobs/" ++ tmplS (id_ job)
    ++ (match slug with [] => [] | _ => js "-" ++ slug end)
    ++ js "?ref=" ++ REF.

(** [esc(str)]: a pipe gets a backslash, a line feed becomes a space. *)
Definition escUnit (c : N) : jsstring :=
  if (c =? 124)%N then [92%N; 124%N]
  else if (c =? 10)%N then [32%N]
  else [c].

Definition esc (str : option jsstring) : jsstring :=
  concat (map escUnit (orS str [])).

(** [normalizeName(name)] *)
Definition normalizeName (name : option jsstring) : jsstring :=
  List.filter isSlugUnit (toLowerCase (orS name [])).

(** [fmtRole(title)] *)
Definition fmtRole (t0 : option jsstring) : jsstring :=
  let t := esc t0 in
  if (40 <? length t)%nat then slice0 37 t ++ js "..." else t.

(** The lock emoji U+1F512, as its surrogate pair. *)
Definition lock : jsstring := [55357%N; 56594%N].

Definition pricingUrl : jsstring := js "https://wagey.gg/pricing?ref=" ++ REF.

Definition isTeaser (job : Job) : bool :=
  bool_decide (visibility job = Some (js "teaser")).

(** [applyCell(job)] *)
Definition applyCell (job : Job) : jsstring :=
  if isTeaser job then js "[" ++ lock ++ js " Pro](" ++ pricingUrl ++ js ")"
  else js "[Apply](" ++ jobUrl job ++ js ")".

(** [ToInt32]: wrap to 32 bits, signed. *)
Definition toInt32 (x : Z) : Z :=
  let m := x mod 4294967296 in
  if 2147483648 <=? m then m - 4294967296 else m.

(** The loop of [teaserMask]: [h = ((h << 5) - h + s.charCodeAt(i)) | 0]. *)
Definition maskStep (h : Z) (c : N) : Z :=
  toInt32 (toInt32 (Z.shiftl h 5) - h + Z.of_N c).

(** The light-shade block U+2591. *)
Definition shade : N := 9617%N.

(** [teaserMask(job)] *)
Definition teaserMask (job : Job) : jsstring :=
  let s := match title job with
           | Some (c :: r) => c :: r
           | _ => orS (id_ job) []
           end in
  let h := fold_left maskStep s 0 in
  let len := 4 + Z.abs h mod 9 in
  repeat shade (Z.to_nat len).

(** ** Regular expressions

    The patterns of the script use literals, character classes, sequence,
    alternation, optional groups and [+] on a class.  [run] is the
    backtracking matcher of the language with its priorities: the left
    alternative first, a group before its absence, a greedy [+] longest
    first, a lazy [+?] shortest first.  The continuation [k] receives the
    rest of the input and may refuse it, which makes the matcher try the
    next possibility. *)

Inductive re : Type :=
  | Lit (s : jsstring)
  | LitCI (s : jsstring)
  | Class (p : N -> bool)
  | Plus (p : N -> bool)
  | PlusLazy (p : N -> bool)
  | Seq (a b : re)
  | Alt (a b : re)
  | Opt (a : re).

Section Matcher.
Context {A : Type}.

(** [p*], greedy. *)
Fixpoint starGreedy (p : N -> bool) (s : jsstring)
    (k : jsstring -> option A) : option A :=
  match s with
  | c :: r =>
      if p c then
        match starGreedy p r k with
        | Some x => Some x
        | None => k s
        end
      else k s
  | [] => k []
  end.

(** [p*?], lazy. *)
Fixpoint starLazy (p : N -> bool) (s : jsstring)
    (k : jsstring -> option A) : option A :=
  match k s with
  | Some x => Some x
  | None =>
      match s with
      | c :: r => if p c then starLazy p r k else None
      | [] => None
      end
  end.

Fixpoint run (r : re) (s : jsstring) (k : jsstring -> option A) : option A :=
  match r with
  | Lit l => match stripPrefix l s with Some s' => k s' | None => None end
  | LitCI l => match stripPrefixCI l s with Some s' => k s' | None => None end
  | Class p =>
      match s with
      | c :: s' => if p c then k s' else None
      | [] => None
      end
  | Plus p =>
      match s with
      | c :: s' => if p c then starGreedy p s' k else None
      | [] => None
      end
  | PlusLazy p =>
      match s with
      | c :: s' => if p c then starLazy p s' k else None
      | [] => None
      end
  | Seq a b => run a s (fun s' => run b s' k)
  | Alt a b =>
      match run a s k with
      | Some x => Some x
      | None => run b s k
      end
  | Opt a =>
      match run a s k with
      | Some x => Some x
      | None => k s
      end
  end.
End Matcher.

(** The continuation of a pattern closed by [$]. *)
Definition atEnd (s : jsstring) : option unit :=
  match s with [] => Some tt | _ => None end.

(** [/^r$/.test(s)] *)
Definition testFull (r : re) (s : jsstring) : bool :=
  bool_decide (is_Some (run r s atEnd)).

(** [/^r/.test(s)] *)
Definition testPrefix (r : re) (s : jsstring) : bool :=
  bool_decide (is_Some (run r s (fun _ => Some tt))).

(** What a match consumed: [s] without its suffix [rest]. *)
Definition consumed (s rest : jsstring) : jsstring :=
  firstn (length s - length rest)%nat s.

(** [s.match(/(a)b/)], capture 1: the first start position where [a] then
    [b] match, and what [a] consumed there. *)
Fixpoint searchCapture (a b : re) (s : jsstring) : option jsstring :=
  match run a s (fun s1 => run b s1 (fun _ => Some (consumed s s1))) with
  | Some m => Some m
  | None =>
      match s with
      | [] => None
      | _ :: r => searchCapture a b r
      end
  end.

Definition sp : re := Plus isSpace.

Fixpoint seqs (l : list re) : re :=
  match l with
  | [] => Lit []
  | [r] => r
  | r :: l' => Seq r (seqs l')
  end.

Fixpoint alts (l : list re) : re :=
  match l with
  | [] => Class (fun _ => false)
  | [r] => r
  | r :: l' => Alt r (alts l')
  end.

(** ** Classification *)

(** [GARBAGE_TITLES], between its anchors; the [i] flag is in [LitCI]. *)
Definition GARBAGE_TITLES : re :=
  alts [
    seqs [LitCI (js "career"); Opt (LitCI (js "s"))];
    seqs [LitCI (js "job"); sp; LitCI (js "opening"); Opt (LitCI (js "s"))];
    seqs [LitCI (js "open"); sp; LitCI (js "position"); Opt (LitCI (js "s"))];
    seqs [LitCI (js "position"); Opt (LitCI (js "s"))];
    seqs [LitCI (js "current"); sp; Opt (Seq (LitCI (js "job")) sp);
          LitCI (js "opening"); Opt (LitCI (js "s"))];
    seqs [LitCI (js "join"); sp; LitCI (js "our"); sp; LitCI (js "team")];
    seqs [LitCI (js "work"); sp;
          alts [LitCI (js "with"); LitCI (js "at"); LitCI (js "for")];
          sp; LitCI (js "us")]
  ].

(** [isGarbageJob(job)] *)
Definition isGarbageJob (job : Job) : bool :=
  testFull GARBAGE_TITLES (trim (orS (title job) [])).

(** What a function of the script can throw. *)
Inductive Exn : Type :=
  | ApiError (status : Z) (body : jsstring)
  | FetchRejected (reason : jsstring)
  | BodyUnreadable
  | ParseFailure (line : jsstring)
  | TypeError_push_not_a_function.

Inductive result (A : Type) : Type :=
  | Ok (a : A)
  | Throw (e : Exn).
Arguments Ok {A} a.
Arguments Throw {A} e.

(** The [groups] object: its five own properties. *)
Record Groups := mkGroups {
  WW : list Job;
  EMEA : list Job;
  APAC : list Job;
  NA : list Job;
  LATAM : list Job
}.

Inductive Bucket : Type := bWW | bEMEA | bAPAC | bNA | bLATAM.

Definition bucket (b : Bucket) (g : Groups) : list Job :=
  match b with
  | bWW => WW g
  | bEMEA => EMEA g
  | bAPAC => APAC g
  | bNA => NA g
  | bLATAM => LATAM g
  end.

(** [groups[b].push(job)] *)
Definition push (b : Bucket) (job : Job) (g : Groups) : Groups :=
  match b with
  | bWW => mkGroups (WW g ++ [job]) (EMEA g) (APAC g) (NA g) (LATAM g)
  | bEMEA => mkGroups (WW g) (EMEA g ++ [job]) (APAC g) (NA g) (LATAM g)
  | bAPAC => mkGroups (WW g) (EMEA g) (APAC g ++ [job]) (NA g) (LATAM g)
  | bNA => mkGroups (WW g) (EMEA g) (APAC g) (NA g ++ [job]) (LATAM g)
  | bLATAM => mkGroups (WW g) (EMEA g) (APAC g) (NA g) (LATAM g ++ [job])
  end.

(** The property names that every object literal inherits from
    [Object.prototype].  Each names a function, or the prototype itself for
    [__proto__]: a truthy value without a [push] method. *)
Definition objectPrototypeKeys : list jsstring :=
  map js ["constructor"; "__defineGetter__"; "__defineSetter__";
          "hasOwnProperty"; "__lookupGetter__"; "__lookupSetter__";
          "isPrototypeOf"; "propertyIsEnumerable"; "toString"; "valueOf";
          "__proto__"; "toLocaleString"]%string.

(** [groups[region]]: an own bucket, an inherited property, or [undefined]. *)
Inductive Lookup : Type :=
  | OwnBucket (b : Bucket)
  | Inherited
  | Undefined.

Definition regionCode (s : jsstring) : option Bucket :=
  if str_eqb s (js "WW") then Some bWW
  else if str_eqb s (js "EMEA") then Some bEMEA
  else if str_eqb s (js "APAC") then Some bAPAC
  else if str_eqb s (js "NA") then Some bNA
  else if str_eqb s (js "LATAM") then Some bLATAM
  else None.

Definition getProperty (key : jsstring) : Lookup :=
  match regionCode key with
  | Some b => OwnBucket b
  | None =>
      if bool_decide (key ∈ objectPrototypeKeys) then Inherited else Undefined
  end.

(** One turn of the loop of [groupByRegion]. *)
Definition groupStep (g : Groups) (job : Job) : result Groups :=
  if isGarbageJob job then Ok g
  else
    let region := orS (region job) (js "WW") in
    if str_eqb region (js "WW") then
      if isRemote job then Ok (push bWW job g) else Ok g
    else
      match getProperty region with
      | OwnBucket b => Ok (push b job g)
      | Inherited => Throw TypeError_push_not_a_function
      | Undefined => Ok g
      end.

Fixpoint groupLoop (g : Groups) (jobs : list Job) : result Groups :=
  match jobs with
  | [] => Ok g
  | job :: rest =>
      match groupStep g job with
      | Ok g' => groupLoop g' rest
      | Throw e => Throw e
      end
  end.

(** [groupByRegion(jobs)] *)
Definition groupByRegion (jobs : list Job) : result Groups :=
  groupLoop (mkGroups [] [] [] [] []) jobs.

(** ** Skills *)

Definition notLineTerminator (c : N) : bool := negb (isLineTerminator c).
Definition notCloseParen (c : N) : bool := negb (c =? 41)%N.

(** [s.match(/^(a)b$/)], capture 1. *)
Definition matchCaptureFull (a b : re) (s : jsstring) : option jsstring :=
  run a s (fun s1 =>
    run b s1 (fun rest =>
      match rest with [] => Some (consumed s s1) | _ => None end)).

(** The entry pattern of [parseSkills]: [/^(.+?)(?:\([^)]+\))?$/]. *)
Definition skillName : re := PlusLazy notLineTerminator.
Definition skillScore : re :=
  Opt (seqs [Lit (js "("); Plus notCloseParen; Lit (js ")")]).

Definition parseSkill (s : jsstring) : jsstring :=
  match matchCaptureFull skillName skillScore (trim s) with
  | Some m1 => trim m1
  | None => trim s
  end.

Definition nonEmpty (s : jsstring) : bool :=
  match s with [] => false | _ => true end.

(** [parseSkills(str)] *)
Definition parseSkills (str : option jsstring) : list jsstring :=
  match str with
  | Some (c :: r) => List.filter nonEmpty (map parseSkill (split 44 (c :: r)))
  | _ => []
  end.

(** ** The machine-readable export *)

(** A property of an exported object: left out of the JSON text when
    [undefined], printed as [null], or a value. *)
Inductive field (A : Type) : Type :=
  | Absent
  | Null
  | Val (a : A).
Arguments Absent {A}.
Arguments Null {A}.
Arguments Val {A} a.

(** [o] itself, as a property. *)
Definition passS (o : option jsstring) : field jsstring :=
  match o with Some s => Val s | None => Absent end.

(** [o || null] *)
Definition orNullS (o : option jsstring) : field jsstring :=
  match o with Some (c :: r) => Val (c :: r) | _ => Null end.

Definition orNullZ (o : option Z) : field Z :=
  if truthyZ o then Val (numZ o) else Null.

Record ExportJob := mkExport {
  x_id : field jsstring;
  x_title : field jsstring;
  x_company : field jsstring;
  x_region : field jsstring;
  x_salary : jsstring;
  x_salaryMin : field Z;
  x_salaryMax : field Z;
  x_skills : list jsstring;
  x_seniority : field jsstring;
  x_ats : field jsstring;
  x_verifiedAt : field jsstring;
  x_scrapedAt : field jsstring;
  x_url : field jsstring;
  x_visibility : jsstring
}.

Definition exportJob (j : Job) : ExportJob :=
  let teaser := isTeaser j in
  {| x_id := passS (id_ j);
     x_title := passS (title j);
     x_company := if teaser then Null else passS (company j);
     x_region := passS (region j);
     x_salary := fmtSalary j;
     x_salaryMin := orNullZ (salaryMin j);
     x_salaryMax := orNullZ (salaryMax j);
     x_skills := parseSkills (skills j);
     x_seniority := orNullS (seniority j);
     x_ats := orNullS (ats j);
     x_verifiedAt := orNullS (verifiedAt j);
     x_scrapedAt := orNullS (scrapedAt j);
     x_url := if teaser then Null else Val (jobUrl j);
     x_visibility := orS (visibility j) (js "full") |}.

(** [buildDataJson(jobs)] *)
Definition buildDataJson (jobs : list Job) : list ExportJob := map exportJob jobs.

(** ** Publication history: the patterns *)

Definition digit : re := Class isDigit.
Definition word : re := Class isWord.

(** [/([\d,]+)\s+(EMEA |APAC )?jobs/]: the capture, then the rest. *)
Definition countDigits : re := Plus (fun c => isDigit c || (c =? 44)%N).
Definition countTail : re :=
  seqs [sp; Opt (Alt (Lit (js "EMEA ")) (Lit (js "APAC "))); Lit (js "jobs")].

(** [extractJobCount(message)] *)
Definition extractJobCount (message : jsstring) : option jsstring :=
  searchCapture countDigits countTail message.

(** [/(\d{1,2}-\w{3}-\d{4}\s+\d{2}:\d{2}\s+UTC)/] *)
Definition timestampRe : re :=
  seqs [digit; Opt digit; Lit (js "-"); word; word; word; Lit (js "-");
        digit; digit; digit; digit; sp; digit; digit; Lit (js ":");
        digit; digit; sp; Lit (js "UTC")].

(** [extractTimestamp(message)] *)
Definition extractTimestamp (message : jsstring) : option jsstring :=
  searchCapture timestampRe (Lit []) message.

Record LogEntry := mkEntry {
  hash : jsstring;
  date : option jsstring;
  message : jsstring
}.

(** One line of [git log --format=%H|%aI|%s]. *)
Definition parseLogLine (line : jsstring) : LogEntry :=
  match split 124 line with
  | [] => mkEntry [] None []
  | [h] => mkEntry h None []
  | h :: d :: msgParts => mkEntry h (Some d) (join (js "|") msgParts)
  end.

Inductive Repo : Type := main_repo | emea_repo | apac_repo.

Definition GITHUB_REPOS (r : Repo) : jsstring :=
  match r with
  | main_repo => js "https://github.com/7-of-9/wagey-gg-remote-tech-jobs"
  | emea_repo => js "https://github.com/7-of-9/wagey-gg-remote-tech-emea-jobs"
  | apac_repo => js "https://github.com/7-of-9/wagey-gg-remote-tech-apac-jobs"
  end.

Definition HISTORY_LIMIT : nat := 42.

(** The em dash U+2014 of an empty history cell. *)
Definition placeholder : jsstring := [8212%N].

(** The link of a commit followed by a count. *)
Definition commitCell (r : Repo) (h count : jsstring) : jsstring :=
  js "[`" ++ slice0 7 h ++ js "`](" ++ GITHUB_REPOS r ++ js "/commit/" ++ h
    ++ js ") " ++ count.

(** The index of a secondary log: [byTs.set(ts, e)] for each entry that has a
    timestamp, a later entry replacing an earlier one. *)
Definition indexByTs (log : list LogEntry) : gmap jsstring LogEntry :=
  fold_left
    (fun m e =>
       match extractTimestamp (message e) with
       | Some (c :: r) => <[(c :: r) := e]> m
       | _ => m
       end)
    log ∅.

(** The cell of a secondary target in the row of [ts]. *)
Definition secondaryCell (r : Repo) (byTs : gmap jsstring LogEntry)
    (ts : jsstring) : jsstring :=
  match byTs !! ts with
  | Some e =>
      commitCell r (hash e)
        (match extractJobCount (message e) with
         | Some (c :: n) => c :: n
         | _ => js "?"
         end)
  | None => placeholder
  end.

(** The body of the loop over the primary log: a row, or nothing for a
    commit without timestamp or count. *)
Definition historyRow (emeaByTs apacByTs : gmap jsstring LogEntry)
    (entry : LogEntry) : option jsstring :=
  match extractTimestamp (message entry), extractJobCount (message entry) with
  | Some (c :: t), Some (d :: n) =>
      let ts := c :: t in
      let mainCell := commitCell main_repo (hash entry) (d :: n) in
      Some (js "| " ++ ts ++ js " | " ++ mainCell ++ js " | "
              ++ secondaryCell emea_repo emeaByTs ts ++ js " | "
              ++ secondaryCell apac_repo apacByTs ts ++ js " |")
  | _, _ => None
  end.

Definition historyRows (mainLog emeaLog apacLog : list LogEntry)
    : list jsstring :=
  omap (historyRow (indexByTs emeaLog) (indexByTs apacLog)) mainLog.

Definition historyHeader : jsstring :=
  js "## Update History" ++ [10%N; 10%N]
    ++ js "| Time (UTC) | Main | EMEA | APAC |" ++ [10%N]
    ++ js "|---|---|---|---|" ++ [10%N].

Definition renderHistory (rows : list jsstring) : jsstring :=
  match rows with
  | [] => []
  | _ => historyHeader ++ join [10%N] rows ++ [10%N]
  end.

(** ** The runtime *)

(** A valid [Date] object, by the accessors the script calls. *)
Record JsDate := mkDate {
  getTime : Z;
  getUTCDate : Z;
  getUTCMonth : nat;
  getUTCFullYear : Z;
  getUTCHours : Z;
  getUTCMinutes : Z
}.

(** The [meta] envelope: the logo table [companyLogos], if it has one, as its
    lookup [logos[name]]. *)
Record Meta := mkMeta {
  companyLogos : option (jsstring -> option jsstring)
}.

(** A line of the response body, parsed and typed. *)
Inductive Envelope : Type :=
  | EnvMeta (m : Meta)
  | EnvJob (d : Job)
  | EnvOther.

(** What one call of [fetch] meets: a rejected promise (connection failure,
    timeout), or a response with its status and its body; [None] is a body
    that cannot be read. *)
Inductive Outcome : Type :=
  | Rejected (reason : jsstring)
  | Response (status : Z) (body : option jsstring).

Inductive Event : Type :=
  | EvFetch (attempt : nat)
  | EvSleep (ms : Z).

Definition MAX_RETRIES : nat := 5.
Definition INITIAL_DELAY_MS : Z := 3000.

Definition months : list string :=
  ["Jan"; "Feb"; "Mar"; "Apr"; "May"; "Jun";
   "Jul"; "Aug"; "Sep"; "Oct"; "Nov"; "Dec"]%string.

(** [String(n).padStart(2, '0')] *)
Definition pad2 (n : Z) : jsstring :=
  let s := numToString n in
  if (length s <? 2)%nat then repeat 48%N (2 - length s) ++ s else s.

(** The globe U+1F310 and the office building U+1F3E2. *)
Definition globe : jsstring := [55356%N; 57104%N].
Definition office : jsstring := [55356%N; 57314%N].
(** The bullet U+2022. *)
Definition bullet : jsstring := [8226%N].

(** The salary predicate of the statistics:
    [j.salaryMin || j.salaryMax || j.salary]. *)
Definition hasSalary (j : Job) : bool :=
  truthyZ (salaryMin j) || truthyZ (salaryMax j) || truthyS (salary j).

Definition isVerified (j : Job) : bool := truthyS (verifiedAt j).

Definition count (p : Job -> bool) (l : list Job) : nat :=
  length (List.filter p l).

Definition PLACEHOLDER_LOGO : jsstring :=
  js "https://wagey.gg/api/company-logo?name=_placeholder".

Definition quote : jsstring := [34%N].

Definition tableHeader : list jsstring :=
  [js "| Company | Role | Salary USD | Age | |";
   js "|---------|------|------------|-----|---|"].

Definition noJobs : jsstring := js "*No jobs currently listed.*" ++ [10%N].

Definition REGION_LABELS (b : Bucket) : jsstring :=
  match b with
  | bWW => js "Remote Worldwide"
  | bEMEA => js "Europe & Middle East"
  | bAPAC => js "Asia-Pacific"
  | bNA => js "North America"
  | bLATAM => js "Latin America"
  end.

Definition codeOf (b : Bucket) : jsstring :=
  match b with
  | bWW => js "WW"
  | bEMEA => js "EMEA"
  | bAPAC => js "APAC"
  | bNA => js "NA"
  | bLATAM => js "LATAM"
  end.

(** ** The specification's reading of the buckets *)

(** The region of a record, a missing or empty one read as [WW]. *)
Definition regionOf (j : Job) : jsstring := orS (region j) (js "WW").

(** Whether a record belongs to a bucket, in the words of the specification:
    not garbage, and coded to the bucket, with the remote flag for [WW]. *)
Definition belongs (b : Bucket) (j : Job) : bool :=
  negb (isGarbageJob j)
  && match b with
     | bWW => str_eqb (regionOf j) (js "WW") && isRemote j
     | _ => str_eqb (regionOf j) (codeOf b)
     end.

(** A record whose region does not name a property that [groups] inherits. *)
Definition plainRegion (j : Job) : Prop :=
  isGarbageJob j = false -> regionOf j ∉ objectPrototypeKeys.

(** ** The specification's reading of the history *)

(** An entry that carries a timestamp and a job count. *)
Definition dataCommit (e : LogEntry) : bool :=
  match extractTimestamp (message e), extractJobCount (message e) with
  | Some (_ :: _), Some (_ :: _) => true
  | _, _ => false
  end.

(** An entry whose extracted timestamp is [ts]. *)
Definition stamped (ts : jsstring) (e : LogEntry) : bool :=
  bool_decide (extractTimestamp (message e) = Some ts).

(** The count of an entry, or a question mark. *)
Definition countOr (e : LogEntry) : jsstring :=
  match extractJobCount (message e) with
  | Some (c :: n) => c :: n
  | _ => js "?"
  end.

(** ** Inputs of the examples *)

Definition devJob : Job :=
  mkJob (Some (js "42")) (Some (js "Dev")) (Some (js "Acme")) None true
    None None None None None None None None None None.

Definition withRegion (r : jsstring) (j : Job) : Job :=
  mkJob (id_ j) (title j) (company j) (Some r) (isRemote j) (location j)
    (salary j) (salaryMin j) (salaryMax j) (skills j) (seniority j) (ats j)
    (verifiedAt j) (scrapedAt j) (visibility j).


Definition withBounds (lo hi : option Z) (j : Job) : Job :=
  mkJob (id_ j) (title j) (company j) (region j) (isRemote j) (location j)
    (salary j) lo hi (skills j) (seniority j) (ats j)
    (verifiedAt j) (scrapedAt j) (visibility j).

(** A page of links that the feed lists as a job, and a job at an office. *)
Definition careersJob : Job :=
  mkJob (Some (js "1")) (Some (js " Careers ")) (Some (js "Acme"))
    (Some (js "EMEA")) true None None None None None None None None None None.
Definition officeJob : Job :=
  mkJob (Some (js "2")) (Some (js "Dev")) (Some (js "Acme")) (Some (js "WW"))
    false None None None None None None None None None None.

(** A record of the teaser tier. *)
Definition teaserJob : Job :=
  mkJob (Some (js "7")) (Some (js "Staff Engineer")) (Some (js "Initech"))
    (Some (js "EMEA")) true (Some (js "Berlin")) None (Some 90000)
    (Some 120000) None None None None (Some (js "2026-02-26T04:05:00Z"))
    (Some (js "teaser")).

(** A runtime for the examples.  Its [Date] reads one timestamp, 26 February
    2026 04:05:00 UTC; its locale groups digits by three with commas, as
    [en-US] does; its logo table is empty. *)
Definition demoStamp : jsstring := js "2026-02-26T04:05:00Z".
Definition demoTime : Z := 1772078700000.

Definition demoDate (s : jsstring) : option JsDate :=
  if str_eqb s demoStamp then Some (mkDate demoTime 26 1 2026 4 5) else None.

Fixpoint groupDigits (digitsRev : jsstring) (k : nat) : jsstring :=
  match digitsRev with
  | [] => []
  | d :: r =>
      if (k =? 3)%nat then 44%N :: d :: groupDigits r 1
      else d :: groupDigits r (S k)
  end.

Definition enUS (n : nat) : jsstring :=
  rev (groupDigits (rev (numToString (Z.of_nat n))) 0).

Definition encodePlain (s : jsstring) : jsstring := s.
Definition noLogos (name : jsstring) : option jsstring := None.

(** Two repositories with a publication at the same timestamp, and a third
    that cannot be read. *)
Definition demoGit (r : Repo) (limit : nat) : option jsstring :=
  match r with
  | main_repo =>
      Some (js "abcdef0123|2026-02-26|21,024 jobs | 5 with salary - 26-Feb-2026 04:35 UTC"
              ++ [10%N] ++ js "1234567890|2026-02-25|fix the table header")
  | emea_repo =>
      Some (js "eeeeeeeeeee|2026-02-26|3 EMEA jobs | 26-Feb-2026 04:35 UTC")
  | apac_repo => None
  end.

Definition demoTs : jsstring := js "26-Feb-2026 04:35 UTC".

(** The line of a job envelope that holds [devJob]. *)
Definition quoted_ (s : string) : jsstring := [34%N] ++ js s ++ [34%N].
Definition jobLine : jsstring :=
  js "{" ++ quoted_ "type" ++ js ":" ++ quoted_ "job" ++ js ","
    ++ quoted_ "d" ++ js ":{" ++ quoted_ "id" ++ js ":" ++ quoted_ "42"
    ++ js "," ++ quoted_ "title" ++ js ":" ++ quoted_ "Dev" ++ js ","
    ++ quoted_ "company" ++ js ":" ++ quoted_ "Acme" ++ js ","
    ++ quoted_ "isRemote" ++ js ":true}}".

(** A decoder for the lines of the examples: the empty object has no type,
    [jobLine] is a job, and anything else is taken as malformed (the examples
    use an opening brace alone, which is no JSON text). *)
Definition demoParse (line : jsstring) : result Envelope :=
  if str_eqb line (js "{}") then Ok EnvOther
  else if str_eqb line jobLine then Ok (EnvJob devJob)
  else Throw (ParseFailure line).

(** Servers: one that answers 503 to every attempt; one that answers 404
    once and then an empty feed; one that answers 404 to every attempt; one
    whose first body is cut after its first character; one with an empty
    feed; one with a feed of one job. *)
Definition always503 (n : nat) : Outcome :=
  Response 503 (Some (js "Service Unavailable")).
Definition once404 (n : nat) : Outcome :=
  if (n =? 1)%nat then Response 404 (Some (js "Not Found"))
  else Response 200 (Some (js "{}")).
Definition always404 (n : nat) : Outcome :=
  Response 404 (Some (js "Not Found")).
Definition onceCut (n : nat) : Outcome :=
  if (n =? 1)%nat then Response 200 (Some (js "{"))
  else Response 200 (Some (js "{}")).
Definition emptyFeed (n : nat) : Outcome := Response 200 (Some (js "{}")).
(** A body of three lines: one that parses, and two that do not. *)
Definition cutBody : jsstring :=
  js "{}" ++ [10%N] ++ js "{" ++ [10%N] ++ js "[".
Definition alwaysCut (n : nat) : Outcome := Response 200 (Some cutBody).
Definition oneJobFeed (n : nat) : Outcome :=
  Response 200 (Some (jobLine ++ [10%N] ++ js "{}" ++ [10%N])).

(** A [WW] bucket of 501 remote records, and a small one. *)
Definition crowded : Groups := mkGroups (repeat devJob 501) [] [] [] [].
Definition small : Groups :=
  mkGroups [devJob; withBounds (Some 90000) None devJob] [teaserJob] [] [] [].

Section Runtime.

(** [new Date(str)] for a string; [None] is an invalid date. *)
Variable newDate : jsstring -> option JsDate.
(** [Date.now()], held fixed during a run. *)
Variable now : Z.
(** [encodeURIComponent] *)
Variable encodeURIComponent : jsstring -> jsstring.

(** [new Date(dateStr).getTime()]: [None] is [NaN]; a missing property
    gives an invalid date. *)
Definition timeOf (dateStr : option jsstring) : option Z :=
  match dateStr with
  | Some s => getTime <$> newDate s
  | None => None
  end.

(** [fmtDateTime(dateStr)] *)
Definition fmtDateTime (dateStr : option jsstring) : jsstring :=
  match dateStr with
  | Some (c :: r) =>
      match newDate (c :: r) with
      | None => []
      | Some d =>
          numToString (getUTCDate d) ++ js "-"
            ++ js (nth (getUTCMonth d) months "undefined"%string) ++ js "-"
            ++ numToString (getUTCFullYear d) ++ js " "
            ++ pad2 (getUTCHours d) ++ js ":" ++ pad2 (getUTCMinutes d)
            ++ js " UTC"
      end
  | _ => []
  end.

(** [fmtAge(dateStr)] *)
Definition fmtAge (dateStr : option jsstring) : jsstring :=
  match dateStr with
  | Some (c :: r) =>
      match timeOf (Some (c :: r)) with
      | None => js "NaNd"
      | Some t =>
          let ms := now - t in
          let hours := Math_floor_div ms (1000 * 60 * 60) in
          if hours <? 1 then js "<1h"
          else if hours <? 24 then numToString hours ++ js "h"
          else
            let days := Math_floor_div hours 24 in
            if days =? 1 then js "1d" else numToString days ++ js "d"
      end
  | _ => []
  end.

(** The comparator of [sortJobs]: [getTime(b) - getTime(a)]; the sort
    reads a [NaN] as 0. *)
Definition byFreshness (a b : Job) : Z :=
  match timeOf (scrapedAt b), timeOf (scrapedAt a) with
  | Some tb, Some ta => tb - ta
  | _, _ => 0
  end.

(** [Array.prototype.sort] is stable: an element goes before the first
    one that it does not have to follow. *)
Fixpoint insertSorted (x : Job) (l : list Job) : list Job :=
  match l with
  | [] => [x]
  | y :: r => if byFreshness x y <=? 0 then x :: l else y :: insertSorted x r
  end.

(** [sortJobs(jobs)] *)
Definition sortJobs (jobs : list Job) : list Job :=
  foldr insertSorted [] jobs.

(** [companyCell(job, logos)] *)
Definition companyCell (job : Job) (logos : jsstring -> option jsstring)
    : jsstring :=
  let name := slice0 25 (esc (company job)) in
  let normalized := normalizeName (company job) in
  let logoUrl :=
    match logos normalized with
    | Some (c :: r) =>
        js "https://wagey.gg/api/company-logo?id="
          ++ encodeURIComponent (c :: r)
    | _ => PLACEHOLDER_LOGO
    end in
  js "<img src=" ++ quote ++ logoUrl ++ quote ++ js " alt=" ++ quote ++ quote
    ++ js " height=" ++ quote ++ js "16" ++ quote ++ js "> " ++ name.

(** The body of the loop of [jobTable]: the line of one job. *)
Definition jobRow (logos : jsstring -> option jsstring) (job : Job)
    : jsstring :=
  let company :=
    if isTeaser job then lock ++ js " " ++ teaserMask job
    else companyCell job logos in
  let roleTitle := fmtRole (title job) in
  let remote := if isRemote job then globe else office in
  let rawLoc := trim (orS (location job) []) in
  let loc :=
    if negb (nonEmpty rawLoc) || testPrefix (LitCI (js "unknown")) rawLoc
    then [] else slice0 35 (esc (Some rawLoc)) in
  let locPart := if nonEmpty loc then loc ++ js " " ++ bullet ++ js " " else [] in
  let debug := js " <br><sub>" ++ remote ++ js " " ++ locPart
                 ++ orS (region job) (js "?") ++ js "</sub>" in
  let role := roleTitle ++ debug in
  js "| " ++ company ++ js " | " ++ role ++ js " | " ++ fmtSalary job
    ++ js " | " ++ fmtAge (scrapedAt job) ++ js " | " ++ applyCell job
    ++ js " |".

(** [sortJobs(jobs).slice(0, limit)]: the jobs that [jobTable] shows. *)
Definition shown (jobs : list Job) (limit : nat) : list Job :=
  firstn limit (sortJobs jobs).

(** The rows that [jobTable] renders: one line for each job shown. *)
Definition jobTableRows (jobs : list Job)
    (logos : jsstring -> option jsstring) (limit : nat) : list jsstring :=
  map (jobRow logos) (shown jobs limit).

(** [jobTable(jobs, logos, limit)] *)
Definition jobTable (jobs : list Job) (logos : jsstring -> option jsstring)
    (limit : nat) : jsstring :=
  match shown jobs limit with
  | [] => noJobs
  | _ => join [10%N] (tableHeader ++ jobTableRows jobs logos limit) ++ [10%N]
  end.

(** The limit that every caller of [jobTable] leaves at its default. *)
Definition DEFAULT_LIMIT : nat := 500.

(** *** Publication history *)

(** The output of [git log --format=%H|%aI|%s -limit] in a repository;
    [None] when the command fails. *)
Variable git_log : Repo -> nat -> option jsstring.

(** [readGitLog(repoPath, limit)] *)
Definition readGitLog (repo : Repo) (limit : nat) : list LogEntry :=
  match git_log repo limit with
  | None => []
  | Some out =>
      match trim out with
      | [] => []
      | raw => map parseLogLine (split 10 raw)
      end
  end.

(** [buildHistoryTable()] *)
Definition buildHistoryTable : jsstring :=
  let mainLog := readGitLog main_repo HISTORY_LIMIT in
  let emeaLog := readGitLog emea_repo HISTORY_LIMIT in
  let apacLog := readGitLog apac_repo HISTORY_LIMIT in
  renderHistory (historyRows mainLog emeaLog apacLog).

(** *** Documents *)

(** [n.toLocaleString()] in the locale of the process. *)
Variable toLocaleString : nat -> jsstring.
(** [new Date().toISOString()] *)
Variable nowISO : jsstring.

(** The count of a statistic, as the documents quote it. *)
Definition quoted (p : Job -> bool) (jobs : list Job) : jsstring :=
  toLocaleString (count p jobs).

Definition quotedLength (jobs : list Job) : jsstring :=
  toLocaleString (length jobs).

(** [regionRow(code)] of [mainReadme] *)
Definition regionRow (groups : Groups) (code : Bucket) : jsstring :=
  let label := REGION_LABELS code in
  let jobs := bucket code groups in
  let linkedLabel :=
    match code with
    | bEMEA => js "[" ++ label ++ js "](" ++ GITHUB_REPOS emea_repo ++ js ")"
    | bAPAC => js "[" ++ label ++ js "](" ++ GITHUB_REPOS apac_repo ++ js ")"
    | _ => js "[" ++ label ++ js "](#" ++ toLowerCase (codeOf code) ++ js ")"
    end in
  js "| " ++ linkedLabel ++ js " | " ++ quotedLength jobs ++ js " | "
    ++ quoted hasSalary jobs ++ js " | " ++ quoted isVerified jobs ++ js " |".

Definition regionOrder : list Bucket := [bWW; bNA; bLATAM; bEMEA; bAPAC].

(** A section of the overview: the count in its heading and its table. *)
Record RegionSection := mkSection {
  heading : jsstring;
  headingCount : jsstring;
  table : jsstring
}.

(** The overview document, by the values that its template interpolates,
    in the order of the template; the fixed text around them is left
    out. *)
Record MainReadme := mkMainReadme {
  mr_regionRows : list jsstring;
  mr_now : jsstring;
  mr_totalJobs : jsstring;
  mr_totalSalary : jsstring;
  mr_totalVerified : jsstring;
  mr_otherEMEA : jsstring;
  mr_otherAPAC : jsstring;
  mr_sections : list RegionSection;
  mr_history : jsstring
}.

Definition regionSection (groups : Groups)
    (logos : jsstring -> option jsstring) (b : Bucket) : RegionSection :=
  {| heading := REGION_LABELS b;
     headingCount := quotedLength (bucket b groups);
     table := jobTable (bucket b groups) logos DEFAULT_LIMIT |}.

(** [mainReadme(groups, allJobs, logos, historyTable)] *)
Definition mainReadme (groups : Groups) (allJobs : list Job)
    (logos : jsstring -> option jsstring) (historyTable : jsstring)
    : MainReadme :=
  {| mr_regionRows := map (regionRow groups) regionOrder;
     mr_now := fmtDateTime (Some nowISO);
     mr_totalJobs := quotedLength allJobs;
     mr_totalSalary := quoted hasSalary allJobs;
     mr_totalVerified := quoted isVerified allJobs;
     mr_otherEMEA := quotedLength (EMEA groups);
     mr_otherAPAC := quotedLength (APAC groups);
     mr_sections := map (regionSection groups logos) [bWW; bNA; bLATAM];
     mr_history := historyTable |}.

(** The document of a secondary target, in the same way. *)
Record RegionReadme := mkRegionReadme {
  rr_label : jsstring;
  rr_now : jsstring;
  rr_totalJobs : jsstring;
  rr_withSalary : jsstring;
  rr_verified : jsstring;
  rr_otherEMEA : option jsstring;
  rr_otherAPAC : option jsstring;
  rr_table : jsstring;
  rr_history : jsstring
}.

(** [regionReadme(regionCode, regionLabel, jobs, allGroups, logos,
    historyTable)] *)
Definition regionReadme (regionCode regionLabel : jsstring)
    (jobs : list Job) (allGroups : Groups)
    (logos : jsstring -> option jsstring) (historyTable : jsstring)
    : RegionReadme :=
  {| rr_label := regionLabel;
     rr_now := fmtDateTime (Some nowISO);
     rr_totalJobs := quotedLength jobs;
     rr_withSalary := quoted hasSalary jobs;
     rr_verified := quoted isVerified jobs;
     rr_otherEMEA :=
       if str_eqb regionCode (js "EMEA") then None
       else Some (quotedLength (EMEA allGroups));
     rr_otherAPAC :=
       if str_eqb regionCode (js "APAC") then None
       else Some (quotedLength (APAC allGroups));
     rr_table := jobTable jobs logos DEFAULT_LIMIT;
     rr_history := historyTable |}.

(** *** The fetcher *)

(** [JSON.parse(line)] with the reading of [obj.type] and [obj.d]: the
    typed envelope of a line, or what the parsing throws. *)
Variable parseLine : jsstring -> result Envelope.
(** What the call of [fetch] in attempt [n] meets. *)
Variable fetch : nat -> Outcome.

(** [resp.ok] *)
Definition ok (status : Z) : bool := (200 <=? status) && (status <=? 299).

(** [text.split('\n').filter(l => l.trim())] *)
Definition bodyLines (text : jsstring) : list jsstring :=
  List.filter (fun l => nonEmpty (trim l)) (split 10 text).

(** The loop over the lines of a body. *)
Fixpoint parseLines (lines : list jsstring) (jobs : list Job)
    (meta : option Meta) : result (list Job * option Meta) :=
  match lines with
  | [] => Ok (jobs, meta)
  | line :: rest =>
      match parseLine line with
      | Throw e => Throw e
      | Ok (EnvMeta m) => parseLines rest jobs (Some m)
      | Ok (EnvJob d) => parseLines rest (jobs ++ [d]) meta
      | Ok EnvOther => parseLines rest jobs meta
      end
  end.

(** [INITIAL_DELAY_MS * Math.pow(2, attempt - 1)] *)
Definition backoff (attempt : nat) : Z :=
  INITIAL_DELAY_MS * 2 ^ (Z.of_nat attempt - 1).

(** The loop of [fetchJobs] from [attempt] on; [left] turns are left, so
    that [left = 0] is the loop condition [attempt <= MAX_RETRIES] turned
    false, where the function returns [undefined].  The result comes with
    the calls of [fetch] and of [sleep], in order. *)
Fixpoint fetchLoop (left attempt : nat)
    : list Event * result (option (list Job * option Meta)) :=
  match left with
  | O => ([], Ok None)
  | S left' =>
      let retry :=
        let '(tr, r) := fetchLoop left' (S attempt) in
        (EvFetch attempt :: EvSleep (backoff attempt) :: tr, r) in
      (* the [catch] block *)
      let catch (err : Exn) :=
        if (attempt <? MAX_RETRIES)%nat then retry
        else ([EvFetch attempt], Throw err) in
      match fetch attempt with
      | Rejected reason => catch (FetchRejected reason)
      | Response status body =>
          if negb (ok status) then
            let bodyText := default (js "(no body)") body in
            let isRetryable := (500 <=? status) || (status =? 429) in
            if isRetryable && (attempt <? MAX_RETRIES)%nat then retry
            else catch (ApiError status (slice0 500 bodyText))
          else
            match body with
            | None => catch BodyUnreadable
            | Some text =>
                match parseLines (bodyLines text) [] None with
                | Throw e => catch e
                | Ok r => ([EvFetch attempt], Ok (Some r))
                end
            end
      end
  end.

(** [fetchJobs()] *)
Definition fetchJobs : list Event * result (option (list Job * option Meta)) :=
  fetchLoop MAX_RETRIES 1.

(** *** The sink and the run *)

Variable DRY_RUN : bool.

Inductive Content : Type :=
  | DocMain (d : MainReadme)
  | DocRegion (d : RegionReadme)
  | Json (l : list ExportJob)
  | Text (s : jsstring).

(** What the sink does to the file system; a path is a repository and the
    segments below its root. *)
Inductive Effect : Type :=
  | Mkdir (repo : Repo) (dir : list jsstring)
  | WriteFile (repo : Repo) (path : list jsstring) (content : Content).

(** [writeFile(path, content)] *)
Definition writeFile (repo : Repo) (path : list jsstring)
    (content : Content) : list Effect :=
  if DRY_RUN then []
  else [Mkdir repo (removelast path); WriteFile repo path content].

Definition emDash : jsstring := [8212%N].

Definition README_md : list jsstring := [js "README.md"].
Definition jobs_json : list jsstring := [js "data"; js "jobs.json"].
Definition commit_msg_txt : list jsstring := [js "data"; js "commit-msg.txt"].

(** The end of a run: what was fetched and slept, what the sink did, and
    the exit status of the process. *)
Record Run := mkRun {
  fetchTrace : list Event;
  effects : list Effect;
  exitCode : Z
}.

Definition regionMsg (code : jsstring) (jobs : list Job) (stamp : jsstring)
    : jsstring :=
  quotedLength jobs ++ js " " ++ code ++ js " jobs | "
    ++ quoted hasSalary jobs ++ js " with salary | "
    ++ quoted isVerified jobs ++ js " verified " ++ emDash ++ js " " ++ stamp.

(** [main()] with the handler of its rejection: every exception that
    reaches the top level ends the process with status 1. *)
Definition main : Run :=
  let '(tr, fetched) := fetchJobs in
  match fetched with
  | Throw _ => mkRun tr [] 1
  | Ok None => mkRun tr [] 1
  | Ok (Some (jobs, meta)) =>
      if (length jobs =? 0)%nat then mkRun tr [] 1
      else
        let logos :=
          match meta with
          | Some m => default (fun _ => None) (companyLogos m)
          | None => fun _ => None
          end in
        match groupByRegion jobs with
        | Throw _ => mkRun tr [] 1
        | Ok groups =>
            let teaserCount := count isTeaser jobs in
            let stamp := fmtDateTime (Some nowISO) in
            let mainMsg :=
              quotedLength jobs ++ js " jobs | "
                ++ quoted hasSalary jobs ++ js " with salary | "
                ++ quoted isVerified jobs ++ js " verified | "
                ++ numToString (Z.of_nat teaserCount) ++ js " Pro teasers "
                ++ emDash ++ js " " ++ stamp in
            let emeaMsg := regionMsg (js "EMEA") (EMEA groups) stamp in
            let apacMsg := regionMsg (js "APAC") (APAC groups) stamp in
            let historyTable := buildHistoryTable in
            mkRun tr
              (writeFile main_repo README_md
                 (DocMain (mainReadme groups jobs logos historyTable))
               ++ writeFile main_repo jobs_json (Json (buildDataJson jobs))
               ++ writeFile main_repo commit_msg_txt (Text mainMsg)
               ++ writeFile emea_repo README_md
                    (DocRegion (regionReadme (js "EMEA")
                       (js "Europe & Middle East") (EMEA groups) groups
                       logos historyTable))
               ++ writeFile emea_repo jobs_json
                    (Json (buildDataJson (EMEA groups)))
               ++ writeFile emea_repo commit_msg_txt (Text emeaMsg)
               ++ writeFile apac_repo README_md
                    (DocRegion (regionReadme (js "APAC")
                       (js "Asia-Pacific") (APAC groups) groups
                       logos historyTable))
               ++ writeFile apac_repo jobs_json
                    (Json (buildDataJson (APAC groups)))
               ++ writeFile apac_repo commit_msg_txt (Text apacMsg))
              0
        end
  end.

(** The file system: the content at each path, if any. *)
Definition FS : Type := Repo -> list jsstring -> option Content.

Definition repo_eqb (a b : Repo) : bool :=
  match a, b with
  | main_repo, main_repo | emea_repo, emea_repo | apac_repo, apac_repo => true
  | _, _ => false
  end.

Definition applyEffect (fs : FS) (e : Effect) : FS :=
  match e with
  | Mkdir _ _ => fs
  | WriteFile repo path content =>
      fun r p =>
        if repo_eqb r repo && bool_decide (p = path) then Some content
        else fs r p
  end.

(** The file system after a run. *)
Definition after (fs : FS) (r : Run) : FS :=
  fold_left applyEffect (effects r) fs.

(** The step of the loop that waits and goes on to the next attempt. *)
Definition goesOn (left attempt : nat) : Prop :=
  fetchLoop (S left) attempt
  = (EvFetch attempt :: EvSleep (backoff attempt)
       :: (fetchLoop left (S attempt)).1,
     (fetchLoop left (S attempt)).2).





(** No two dashes in a row. *)
Fixpoint noDoubleDash (s : jsstring) : Prop :=
  match s with
  | a :: (b :: _) as r => (a = dash -> b <> dash) /\ noDoubleDash r
  | _ => True
  end.

(** The calls of [fetch] in a trace, and the time slept in it. *)
Definition fetchCount (tr : list Event) : nat :=
  length (List.filter (fun e => match e with EvFetch _ => true | _ => false end)
            tr).

Definition sleepTotal (tr : list Event) : Z :=
  fold_right (fun e acc => match e with EvSleep ms => ms + acc | _ => acc end)
    0 tr.

(** The payload and the meta object of an envelope. *)
Definition envelopeJob (e : Envelope) : option Job :=
  match e with EnvJob d => Some d | _ => None end.

Definition envelopeMeta (e : Envelope) : option Meta :=
  match e with EnvMeta m => Some m | _ => None end.

(** What one attempt comes to, the retry left aside: the feed of a 2xx
    body whose lines parse, or the error of the attempt. *)
Definition attemptResult (attempt : nat) : result (list Job * option Meta) :=
  match fetch attempt with
  | Rejected reason => Throw (FetchRejected reason)
  | Response status body =>
      if ok status then
        match body with
        | Some text => parseLines (bodyLines text) [] None
        | None => Throw BodyUnreadable
        end
      else Throw (ApiError status (slice0 500 (default (js "(no body)") body)))
  end.

(** The path that an effect writes, and the directory that it makes. *)
Definition writtenPath (e : Effect) : option (Repo * list jsstring) :=
  match e with
  | WriteFile r path _ => Some (r, path)
  | Mkdir _ _ => None
  end.

Definition madeDir (e : Effect) : option (Repo * list jsstring) :=
  match e with
  | Mkdir r dir => Some (r, dir)
  | WriteFile _ _ _ => None
  end.

(** * Properties *)

(** ** Sorting keeps the jobs *)

Lemma insertSorted_perm x l : insertSorted x l ≡ₚ x :: l.
Proof.
  induction l as [|y r IH]; simpl; [done|].
  destruct (byFreshness x y <=? 0); [done|].
  rewrite IH. apply Permutation_swap.
Qed.

Lemma sortJobs_perm jobs : sortJobs jobs ≡ₚ jobs.
Proof.
  induction jobs as [|x l IH]; simpl; [done|].
  rewrite insertSorted_perm. by rewrite IH.
Qed.

Lemma sortJobs_length jobs : length (sortJobs jobs) = length jobs.
Proof. by rewrite sortJobs_perm. Qed.







Lemma count_perm p (l l' : list Job) : l ≡ₚ l' -> count p l = count p l'.
Proof.
  unfold count. induction 1; simpl; try done.
  - destruct (p x); simpl; congruence.
  - destruct (p x), (p y); simpl; congruence.
  - congruence.
Qed.

Lemma shown_length jobs limit :
  length (shown jobs limit) = Nat.min limit (length jobs).
Proof. unfold shown. by rewrite length_take, sortJobs_length. Qed.

Lemma shown_all jobs limit :
  (length jobs <= limit)%nat -> shown jobs limit = sortJobs jobs.
Proof.
  intros H. unfold shown. apply firstn_all2. by rewrite sortJobs_length.
Qed.

(** ** Salary display *)

Lemma Math_round_div_nearest n :
  let q := Math_round_div n 1000 in
  1000 * q - 500 <= n < 1000 * q + 500.
Proof.
  unfold Math_round_div. cbv zeta.
  change (2 * 1000) with 2000.
  pose proof (Z.div_mod (2 * n + 1000) 2000 ltac:(lia)) as E.
  pose proof (Z.mod_pos_bound (2 * n + 1000) 2000 ltac:(lia)) as B.
  lia.
Qed.

(** C9, as the code has it.  With a bound present when it is a number
    other than 0: equal bounds give one compacted value and [/year];
    different bounds give the two compacted values around an en dash and
    [/year]; the lower bound alone gives its compacted value and [+/year];
    the upper bound alone gives its compacted value and [/year], without
    [+]; no bound gives the empty string.  Compaction of [n >= 1000] is a
    dollar sign, the integer nearest to [n / 1000] (a half goes up) and
    [k]; below 1000 it is the dollar sign and [n]. *)
Theorem fmtSalary_forms (job : Job) :
  let lo := salaryMin job in
  let hi := salaryMax job in
  (truthyZ lo = true -> truthyZ hi = true -> lo = hi ->
     fmtSalary job = fmtK (numZ lo) ++ js "/year")
  /\ (truthyZ lo = true -> truthyZ hi = true -> lo <> hi ->
     fmtSalary job = fmtK (numZ lo) ++ enDash ++ fmtK (numZ hi) ++ js "/year")
  /\ (truthyZ lo = true -> truthyZ hi = false ->
     fmtSalary job = fmtK (numZ lo) ++ js "+/year")
  /\ (truthyZ lo = false -> truthyZ hi = true ->
     fmtSalary job = fmtK (numZ hi) ++ js "/year")
  /\ (truthyZ lo = false -> truthyZ hi = false -> fmtSalary job = [])
  /\ (forall n, 1000 <= n ->
     exists q, 1000 * q - 500 <= n < 1000 * q + 500
               /\ fmtK n = js "$" ++ numToString q ++ js "k")
  /\ (forall n, n < 1000 -> fmtK n = js "$" ++ numToString n)
  /\ fmtK 1200 = js "$1k" /\ fmtK 950 = js "$950"
  /\ fmtK 1500000 = js "$1500k".
Proof.
  intros lo hi. unfold fmtSalary. fold lo hi.
  repeat split.
  - intros -> -> E. by rewrite bool_decide_eq_true_2.
  - intros -> -> E. by rewrite bool_decide_eq_false_2.
  - intros -> ->. done.
  - intros -> ->. done.
  - intros -> ->. done.
  - intros n Hn. exists (Math_round_div n 1000). split.
    + apply Math_round_div_nearest.
    + unfold fmtK. by rewrite (proj2 (Z.leb_le 1000 n) Hn).
  - intros n Hn. unfold fmtK.
    by rewrite (proj2 (Z.leb_gt 1000 n) Hn).
Qed.

(** ** Age *)

(** C10.  [fmtAge] is a total function of its argument and has a text for
    each case: a missing or empty argument gives the empty string; a
    timestamp that the runtime parses, less than one hour before the current
    instant or after it, gives [<1h]; a text that the runtime does not parse
    gives [NaNd], without an exception.  The empty string is not a date for
    the runtime. *)
Theorem fmtAge_under_one_hour (dateStr : option jsstring) :
  newDate [] = None ->
  (truthyS dateStr = false -> fmtAge dateStr = [])
  /\ (forall s d, dateStr = Some s -> newDate s = Some d ->
        now - getTime d < 3600000 -> fmtAge dateStr = js "<1h")
  /\ (forall s, dateStr = Some s -> s <> [] -> newDate s = None ->
        fmtAge dateStr = js "NaNd").
Proof.
  intros Hempty. split_and!.
  - destruct dateStr as [[|c r]|]; simpl; done.
  - intros s d -> Hd Hlt. destruct s as [|c r]; [congruence|].
    unfold fmtAge, timeOf. rewrite Hd. cbn [fmap option_fmap option_map].
    unfold Math_floor_div. change (1000 * 60 * 60) with 3600000.
    assert ((now - getTime d) / 3600000 < 1) as Hh
      by (apply Z.div_lt_upper_bound; lia).
    by rewrite (proj2 (Z.ltb_lt _ _) Hh).
  - intros s -> Hne Hd. destruct s as [|c r]; [done|].
    unfold fmtAge, timeOf. by rewrite Hd.
Qed.

(** ** Buckets *)

Lemma groupStep_buckets g j :
  plainRegion j ->
  exists g', groupStep g j = Ok g'
    /\ forall b, bucket b g' = bucket b g ++ (if belongs b j then [j] else []).
Proof.
  intros Hplain. unfold groupStep, belongs, plainRegion in *.
  change (orS (region j) (js "WW")) with (regionOf j).
  destruct (isGarbageJob j); simpl.
  { exists g. split; [done|]. intros b. by rewrite app_nil_r. }
  specialize (Hplain eq_refl). revert Hplain.
  generalize (regionOf j). intros r Hplain.
  unfold getProperty, regionCode, str_eqb.
  repeat case_bool_decide; subst; try done;
    try (destruct (isRemote j));
    (eexists; split; [reflexivity|]);
    intros []; simpl; rewrite ?app_nil_r; try done.
  all: try (rewrite bool_decide_eq_false_2; [by rewrite ?app_nil_r|done]).
Qed.

Lemma groupLoop_buckets jobs :
  forall g, Forall plainRegion jobs ->
  exists g', groupLoop g jobs = Ok g'
    /\ forall b, bucket b g' = bucket b g ++ List.filter (belongs b) jobs.
Proof.
  induction jobs as [|j rest IH]; intros g Hall; simpl.
  - exists g. split; [done|]. intros b. by rewrite app_nil_r.
  - inversion Hall as [|? ? Hj Hrest]; subst.
    destruct (groupStep_buckets g j Hj) as (g1 & -> & H1).
    destruct (IH g1 Hrest) as (g2 & -> & H2).
    exists g2. split; [done|]. intros b.
    rewrite H2, H1, <- app_assoc. by destruct (belongs b j).
Qed.

(** The buckets of [groupByRegion] on records whose regions name no
    inherited property: each bucket holds, in the order of the input, the
    records that belong to it.  So a garbage title is in no bucket, a
    record coded [WW] or without region is in the [WW] bucket exactly when
    it is remote and in no other, a record coded to another region is in
    that bucket only, and any other code is in none. *)
Theorem groupByRegion_buckets (jobs : list Job) :
  Forall plainRegion jobs ->
  exists g, groupByRegion jobs = Ok g
    /\ forall b, bucket b g = List.filter (belongs b) jobs.
Proof.
  intros Hall. unfold groupByRegion.
  destruct (groupLoop_buckets jobs (mkGroups [] [] [] [] []) Hall)
    as (g & Hg & Hb).
  exists g. split; [done|]. intros b. rewrite Hb. by destruct b.
Qed.

(** C4, where the code departs from it.  A region that names a property
    inherited from [Object.prototype] passes the test [groups[region]];
    the call of [push] on it throws, and the grouping has no result: the
    record coded [EMEA] before it reaches no bucket either. *)
Theorem groupByRegion_inherited_region_throws :
  groupByRegion [withRegion (js "EMEA") devJob;
                 withRegion (js "constructor") devJob]
  = Throw TypeError_push_not_a_function.
Proof. vm_compute. reflexivity. Qed.

(** ** The fetcher *)

Lemma parseLines_first_failure lines :
  forall jobs meta line e,
    In line lines -> parseLine line = Throw e ->
    exists pre first post e1,
      lines = pre ++ first :: post
      /\ Forall (fun l => exists env, parseLine l = Ok env) pre
      /\ parseLine first = Throw e1
      /\ parseLines lines jobs meta = Throw e1.
Proof.
  induction lines as [|l rest IH]; intros jobs meta line e Hin Hfail.
  - destruct Hin.
  - simpl. destruct (parseLine l) as [env|e0] eqn:El.
    + destruct Hin as [->|Hin]; [congruence|].
      assert (forall jobs' meta',
                 exists pre first post e1,
                   l :: rest = pre ++ first :: post
                   /\ Forall (fun l => exists env, parseLine l = Ok env) pre
                   /\ parseLine first = Throw e1
                   /\ parseLines rest jobs' meta' = Throw e1) as Hrest.
      { intros jobs' meta'.
        destruct (IH jobs' meta' line e Hin Hfail)
          as (pre & first & post & e1 & -> & Hpre & Hfirst & Hparse).
        exists (l :: pre), first, post, e1.
        split_and!; [done| |done|done].
        constructor; [by exists env|done]. }
      destruct env as [m|d|]; apply Hrest.
    + exists [], l, rest, e0. split_and!; [done|constructor|done|done].
Qed.

(** What the code does on a status that the specification calls
    permanent: while attempts remain, it waits and fetches again. *)
Lemma fetchLoop_permanent_status_goes_on left attempt status body :
  fetch attempt = Response status body ->
  ok status = false -> status < 500 -> status <> 429 ->
  (attempt < MAX_RETRIES)%nat ->
  goesOn left attempt.
Proof.
  intros Hf Hok H5 H429 Hlt. unfold goesOn. cbn [fetchLoop].
  rewrite Hf, Hok. cbn [negb].
  rewrite (proj2 (Z.leb_gt 500 status) H5).
  rewrite (proj2 (Z.eqb_neq status 429) H429). cbn [orb andb].
  rewrite (proj2 (Nat.ltb_lt _ _) Hlt).
  by destruct (fetchLoop left (S attempt)).
Qed.

(** C2, as the code has it.  When a line of a 2xx body that is not blank
    fails to parse, the lines of the body that are not blank are some lines
    that parse, then the first line that does not, then the rest; the attempt ends with the error of that first
    line and with no job.  The error is handled as any failure of an
    attempt: before the last attempt the fetcher waits for the backoff delay
    and fetches again; on the last attempt the error goes to the caller. *)
Theorem fetchLoop_parse_failure (left attempt : nat) (status : Z)
    (text line : jsstring) (e : Exn) :
  fetch attempt = Response status (Some text) ->
  ok status = true ->
  In line (split 10 text) -> trim line <> [] ->
  parseLine line = Throw e ->
  exists pre first post e1,
    List.filter (fun l => nonEmpty (trim l)) (split 10 text)
    = pre ++ first :: post
    /\ Forall (fun l => exists env, parseLine l = Ok env) pre
    /\ parseLine first = Throw e1
    /\ ((attempt < MAX_RETRIES)%nat ->
          fetchLoop (S left) attempt
          = (EvFetch attempt :: EvSleep (3000 * 2 ^ (Z.of_nat attempt - 1))
               :: (fetchLoop left (S attempt)).1,
             (fetchLoop left (S attempt)).2))
    /\ ((MAX_RETRIES <= attempt)%nat ->
          fetchLoop (S left) attempt = ([EvFetch attempt], Throw e1)).
Proof.
  intros Hf Hok Hin Hline Hfail.
  assert (In line (bodyLines text)) as Hin'.
  { apply filter_In. split; [done|]. unfold nonEmpty.
    by destruct (trim line). }
  destruct (parseLines_first_failure (bodyLines text) [] None line e Hin' Hfail)
    as (pre & first & post & e1 & Hsplit & Hpre & Hfirst & Hparse).
  exists pre, first, post, e1. split_and!; [done|done|done| |].
  - intros Hlt. cbn [fetchLoop].
    rewrite Hf, Hok, Hparse. cbn [negb].
    rewrite (proj2 (Nat.ltb_lt _ _) Hlt).
    by destruct (fetchLoop left (S attempt)).
  - intros Hge. cbn [fetchLoop].
    rewrite Hf, Hok, Hparse. cbn [negb].
    by rewrite (proj2 (Nat.ltb_ge _ _) Hge).
Qed.

(** C6.  When each of the five attempts meets a 503, [fetchJobs] fetches
    five times, sleeps 3000, 6000, 12000 and 24000 ms between the
    attempts, and throws the error of the fifth response. *)
Theorem fetchJobs_exhausts_on_503 :
  (forall n, (1 <= n <= 5)%nat -> exists body, fetch n = Response 503 body) ->
  exists body5,
    fetch 5%nat = Response 503 body5
    /\ fetchJobs
       = ([EvFetch 1; EvSleep 3000; EvFetch 2; EvSleep 6000;
           EvFetch 3; EvSleep 12000; EvFetch 4; EvSleep 24000; EvFetch 5],
          Throw (ApiError 503 (slice0 500 (default (js "(no body)") body5)))).
Proof.
  intros H.
  destruct (H 1%nat ltac:(lia)) as [b1 H1].
  destruct (H 2%nat ltac:(lia)) as [b2 H2].
  destruct (H 3%nat ltac:(lia)) as [b3 H3].
  destruct (H 4%nat ltac:(lia)) as [b4 H4].
  destruct (H 5%nat ltac:(lia)) as [b5 H5].
  exists b5. split; [done|].
  unfold fetchJobs, MAX_RETRIES. cbn [fetchLoop].
  rewrite H1, H2, H3, H4, H5. reflexivity.
Qed.

Lemma fetchLoop_settles left :
  forall attempt,
    (attempt + left = S MAX_RETRIES)%nat -> (1 <= left)%nat ->
    (fetchLoop left attempt).2 <> Ok None.
Proof.
  induction left as [|left IH]; intros attempt Hsum Hleft; [lia|].
  assert ((attempt <? MAX_RETRIES)%nat = true ->
          (fetchLoop left (S attempt)).2 <> Ok None) as Hnext.
  { intros Hlt. apply Nat.ltb_lt in Hlt. apply IH; lia. }
  cbn [fetchLoop].
  destruct (fetchLoop left (S attempt)) as [tr r] eqn:E. cbn [snd] in Hnext.
  destruct (fetch attempt) as [reason|status body].
  - destruct (attempt <? MAX_RETRIES)%nat; cbn [snd]; [by apply Hnext|done].
  - destruct (negb (ok status)).
    + destruct ((500 <=? status) || (status =? 429));
        destruct (attempt <? MAX_RETRIES)%nat; cbn [andb snd];
        try (by apply Hnext); done.
    + destruct body as [text|].
      * destruct (parseLines (bodyLines text) [] None);
          [done|].
        destruct (attempt <? MAX_RETRIES)%nat; cbn [snd]; [by apply Hnext|done].
      * destruct (attempt <? MAX_RETRIES)%nat; cbn [snd]; [by apply Hnext|done].
Qed.

(** [fetchJobs] settles within its five attempts: it returns a feed or
    throws, and never leaves the loop without a result. *)
Theorem fetchJobs_settles : fetchJobs.2 <> Ok None.
Proof. apply fetchLoop_settles; unfold MAX_RETRIES; lia. Qed.

(** ** The run *)

(** C7.  When the fetch succeeds with no job record, the run ends with
    exit status 1 and the sink has done nothing: the file system after the
    run is the one before it. *)
Theorem main_empty_feed_aborts (tr : list Event) (meta : option Meta) :
  fetchJobs = (tr, Ok (Some ([], meta))) ->
  exitCode main = 1 /\ effects main = []
  /\ forall fs : FS, after fs main = fs.
Proof.
  intros Hf. unfold after, main. rewrite Hf. simpl. done.
Qed.

(** ** Counts and rows *)

Lemma jobTableRows_length jobs logos limit :
  length (jobTableRows jobs logos limit) = Nat.min limit (length jobs).
Proof. unfold jobTableRows. by rewrite length_map, shown_length. Qed.

Lemma shown_count p jobs limit :
  (length jobs <= limit)%nat -> count p (shown jobs limit) = count p jobs.
Proof.
  intros H. rewrite shown_all by done. apply count_perm, sortJobs_perm.
Qed.

Lemma firstn_skipn_perm (jobs : list Job) limit :
  shown jobs limit ++ skipn limit (sortJobs jobs) ≡ₚ jobs.
Proof. unfold shown. rewrite firstn_skipn. apply sortJobs_perm. Qed.

(** The text of a table over the jobs that it shows. *)
Lemma jobTable_text jobs logos limit :
  jobTable jobs logos limit
  = (fun rows : list jsstring =>
       match rows with
       | [] => js "*No jobs currently listed.*" ++ [10%N]
       | _ =>
           join [10%N]
             (js "| Company | Role | Salary USD | Age | |"
              :: js "|---------|------|------------|-----|---|" :: rows)
           ++ [10%N]
       end) (map (jobRow logos) (shown jobs limit)).
Proof. unfold jobTable, jobTableRows. by destruct (shown jobs limit). Qed.

(** C3, as the code has it.  The table of a bucket is the text of its two
    header lines and one row for each rendered record, or the text for no
    job; the rendered records are records of the bucket, as many as the
    bucket has up to 500.  For a bucket of at most 500 records every
    record is rendered, and the count in the heading of the section, the
    counts in the summary of the regional document and the counts in the
    row of the region in the overview are the number of rendered rows and
    the numbers of rendered records with salary and with verification.  For
    a larger bucket the table has 500 rows, and the heading and the
    summaries quote the counts of the whole bucket.  The totals of the
    overview count the whole feed. *)
Theorem counts_match_rows (groups : Groups) (allJobs : list Job)
    (logos : jsstring -> option jsstring) (hist code label : jsstring)
    (b : Bucket) :
  let jobs := bucket b groups in
  let sec := regionSection groups logos b in
  let doc := regionReadme code label jobs groups logos hist in
  let overview := mainReadme groups allJobs logos hist in
  let tableOf := fun rows : list jsstring =>
    match rows with
    | [] => js "*No jobs currently listed.*" ++ [10%N]
    | _ =>
        join [10%N]
          (js "| Company | Role | Salary USD | Age | |"
           :: js "|---------|------|------------|-----|---|" :: rows)
        ++ [10%N]
    end in
  let summaryRow := fun (n withSalary verified : nat) (row : jsstring) =>
    exists linkedLabel,
      row = js "| " ++ linkedLabel ++ js " | " ++ toLocaleString n ++ js " | "
              ++ toLocaleString withSalary ++ js " | "
              ++ toLocaleString verified ++ js " |" in
  exists rendered rest : list Job,
    rendered ++ rest ≡ₚ jobs
    /\ length rendered = Nat.min 500 (length jobs)
    /\ table sec = tableOf (map (jobRow logos) rendered)
    /\ rr_table doc = tableOf (map (jobRow logos) rendered)
    /\ (b ∈ [bWW; bNA; bLATAM] -> sec ∈ mr_sections overview)
    /\ regionRow groups b ∈ mr_regionRows overview
    /\ ((length jobs <= 500)%nat ->
        rest = []
        /\ headingCount sec = toLocaleString (length rendered)
        /\ rr_totalJobs doc = toLocaleString (length rendered)
        /\ rr_withSalary doc
           = toLocaleString (length (List.filter hasSalary rendered))
        /\ rr_verified doc
           = toLocaleString (length (List.filter isVerified rendered))
        /\ summaryRow (length rendered)
             (length (List.filter hasSalary rendered))
             (length (List.filter isVerified rendered)) (regionRow groups b))
    /\ ((500 < length jobs)%nat ->
        length rendered = 500%nat
        /\ headingCount sec = toLocaleString (length jobs)
        /\ rr_totalJobs doc = toLocaleString (length jobs)
        /\ rr_withSalary doc
           = toLocaleString (length (List.filter hasSalary jobs))
        /\ rr_verified doc
           = toLocaleString (length (List.filter isVerified jobs))
        /\ summaryRow (length jobs) (length (List.filter hasSalary jobs))
             (length (List.filter isVerified jobs)) (regionRow groups b))
    /\ mr_totalJobs overview = toLocaleString (length allJobs)
    /\ mr_totalSalary overview
       = toLocaleString (length (List.filter hasSalary allJobs)).
Proof.
  intros jobs sec doc overview tableOf summaryRow.
  exists (shown jobs DEFAULT_LIMIT), (skipn DEFAULT_LIMIT (sortJobs jobs)).
  assert (summaryRow (length jobs) (length (List.filter hasSalary jobs))
            (length (List.filter isVerified jobs)) (regionRow groups b))
    as Hrow.
  { unfold summaryRow, regionRow, quotedLength, quoted. fold jobs.
    by eexists. }
  split_and!.
  - apply firstn_skipn_perm.
  - apply shown_length.
  - apply jobTable_text.
  - apply jobTable_text.
  - intros Hb. unfold overview, mainReadme. cbn [mr_sections].
    apply list_elem_of_fmap. exists b. done.
  - unfold overview, mainReadme. cbn [mr_regionRows].
    apply list_elem_of_fmap. exists b. split; [done|].
    unfold regionOrder. apply list_elem_of_In.
    destruct b; simpl; repeat (first [left; reflexivity|right]).
  - intros Hle.
    assert (length (shown jobs DEFAULT_LIMIT) = length jobs) as Hlen
      by (rewrite shown_length; unfold DEFAULT_LIMIT; lia).
    pose proof (shown_count hasSalary jobs DEFAULT_LIMIT Hle) as Hs.
    pose proof (shown_count isVerified jobs DEFAULT_LIMIT Hle) as Hv.
    unfold count in Hs, Hv. rewrite Hs, Hv, Hlen.
    split_and!; try done.
    apply skipn_all2. by rewrite sortJobs_length.
  - intros Hgt. split_and!; try done.
    rewrite shown_length. unfold DEFAULT_LIMIT. lia.
  - done.
  - done.
Qed.


(** ** Teaser records *)









(** ** Publication history *)

Lemma split_cons sep s : exists p ps, split sep s = p :: ps.
Proof.
  induction s as [|c r (p & ps & IH)]; cbn; [by eexists _, _|].
  destruct (c =? sep)%N; [by eexists _, _|]. rewrite IH. by eexists _, _.
Qed.

Lemma split_app_sep sep h r :
  sep ∉ h -> split sep (h ++ sep :: r) = h :: split sep r.
Proof.
  induction h as [|c h IH]; intros Hh; cbn.
  - by rewrite N.eqb_refl.
  - apply not_elem_of_cons in Hh as [Hc Hh].
    rewrite (proj2 (N.eqb_neq c sep)) by congruence.
    by rewrite IH.
Qed.

Lemma join_split sep s : join [sep] (split sep s) = s.
Proof.
  induction s as [|c r IH]; [done|].
  cbn [split]. destruct (c =? sep)%N eqn:E.
  - apply N.eqb_eq in E as ->.
    destruct (split_cons sep r) as (p & ps & Hs). rewrite Hs in *.
    cbn [join]. cbn [join] in IH. by rewrite IH.
  - destruct (split_cons sep r) as (p & ps & Hs). rewrite Hs in *.
    destruct ps as [|q ps]; cbn [join] in *; by rewrite <- IH.
Qed.

(** A line of [git log --format=%H|%aI|%s]: the hash, the date, and the
    subject with its bars. *)
Lemma parseLogLine_fields h d msg :
  124%N ∉ h -> 124%N ∉ d ->
  parseLogLine (h ++ [124%N] ++ d ++ [124%N] ++ msg) = mkEntry h (Some d) msg.
Proof.
  intros Hh Hd. unfold parseLogLine. cbn [app].
  rewrite (split_app_sep 124 h) by done.
  rewrite (split_app_sep 124 d) by done.
  f_equal. apply (join_split 124).
Qed.

Lemma indexByTs_from log ts :
  ts <> [] ->
  forall m : gmap jsstring LogEntry,
    fold_left
      (fun m e =>
         match extractTimestamp (message e) with
         | Some (c :: r) => <[(c :: r) := e]> m
         | _ => m
         end) log m !! ts
    = match List.find (stamped ts) (rev log) with
      | Some e => Some e
      | None => m !! ts
      end.
Proof.
  intros Hts. induction log as [|e l IH] using rev_ind; intros m; [done|].
  rewrite fold_left_app, rev_app_distr. cbn [fold_left rev app List.find].
  unfold stamped at 1.
  destruct (extractTimestamp (message e)) as [[|c r]|] eqn:E.
  - rewrite bool_decide_eq_false_2 by congruence. apply IH.
  - case_bool_decide as Heq.
    + inversion Heq; subst. apply lookup_insert_eq.
    + rewrite lookup_insert_ne by congruence. apply IH.
  - rewrite bool_decide_eq_false_2 by congruence. apply IH.
Qed.

Lemma indexByTs_lookup log ts :
  ts <> [] -> indexByTs log !! ts = List.find (stamped ts) (rev log).
Proof.
  intros Hts. unfold indexByTs. rewrite indexByTs_from by done.
  by destruct (List.find (stamped ts) (rev log)).
Qed.


Lemma secondaryCell_found r log ts e :
  ts <> [] -> List.find (stamped ts) (rev log) = Some e ->
  secondaryCell r (indexByTs log) ts = commitCell r (hash e) (countOr e).
Proof.
  intros Hts Hf. unfold secondaryCell. by rewrite indexByTs_lookup, Hf.
Qed.

Lemma secondaryCell_none r log ts :
  ts <> [] -> List.find (stamped ts) (rev log) = None ->
  secondaryCell r (indexByTs log) ts = placeholder.
Proof.
  intros Hts Hf. unfold secondaryCell. by rewrite indexByTs_lookup, Hf.
Qed.

Lemma commitCell_not_placeholder r h n : commitCell r h n <> placeholder.
Proof.
  intros H. apply (f_equal (firstn 1)) in H. vm_compute in H. discriminate H.
Qed.

Lemma historyRows_data emeaLog apacLog mainLog :
  Forall2
    (fun e row =>
       exists ts n,
         ts <> [] /\ n <> [] /\ extractTimestamp (message e) = Some ts
         /\ extractJobCount (message e) = Some n
         /\ row = js "| " ++ ts ++ js " | "
                    ++ commitCell main_repo (hash e) n ++ js " | "
                    ++ secondaryCell emea_repo (indexByTs emeaLog) ts
                    ++ js " | "
                    ++ secondaryCell apac_repo (indexByTs apacLog) ts
                    ++ js " |")
    (List.filter dataCommit mainLog)
    (historyRows mainLog emeaLog apacLog).
Proof.
  unfold historyRows.
  induction mainLog as [|e l IH]; [constructor|].
  cbn [List.filter omap list_omap]. unfold dataCommit at 1, historyRow at 1.
  destruct (extractTimestamp (message e)) as [[|c t]|] eqn:Et; try apply IH.
  destruct (extractJobCount (message e)) as [[|d n]|] eqn:En; try apply IH.
  constructor; [|apply IH].
  exists (c :: t), (d :: n). split_and!; done.
Qed.

Lemma find_rev_last {A} (p : A -> bool) (l : list A) (e : A) :
  List.find p (rev l) = Some e ->
  exists pre post,
    l = pre ++ e :: post /\ p e = true /\ Forall (fun x => p x = false) post.
Proof.
  induction l as [|x l IH] using rev_ind; [done|].
  rewrite rev_app_distr. cbn [rev app List.find].
  destruct (p x) eqn:Ex.
  - intros [= <-]. exists l, []. split_and!; [done|done|constructor].
  - intros Hf. destruct (IH Hf) as (pre & post & -> & He & Hpost).
    exists pre, (post ++ [x]). split_and!; [by rewrite <- app_assoc|done|].
    apply Forall_app. split; [done|by constructor].
Qed.

(** The cell of a secondary target, read off its log. *)
Lemma secondaryCell_of_log r log ts :
  ts <> [] ->
  (secondaryCell r (indexByTs log) ts = placeholder
   <-> forall e, In e log -> extractTimestamp (message e) <> Some ts)
  /\ (secondaryCell r (indexByTs log) ts <> placeholder ->
      exists pre e post,
        log = pre ++ e :: post
        /\ extractTimestamp (message e) = Some ts
        /\ Forall (fun e' => extractTimestamp (message e') <> Some ts) post
        /\ secondaryCell r (indexByTs log) ts
           = commitCell r (hash e) (countOr e)).
Proof.
  intros Hts.
  destruct (List.find (stamped ts) (rev log)) as [e|] eqn:Ef.
  - pose proof (secondaryCell_found r log ts e Hts Ef) as Hc.
    destruct (find_rev_last _ _ _ Ef) as (pre & post & Hlog & Hst & Hpost).
    unfold stamped in Hst. apply bool_decide_eq_true_1 in Hst.
    split.
    + split.
      * intros Hp. rewrite Hc in Hp.
        by apply commitCell_not_placeholder in Hp.
      * intros Hno. exfalso. apply (Hno e); [|done].
        rewrite Hlog. apply in_elt.
    + intros _. exists pre, e, post. split_and!; [done|done| |done].
      eapply Forall_impl; [exact Hpost|].
      intros e' He'. unfold stamped in He'.
      by apply bool_decide_eq_false_1 in He'.
  - pose proof (secondaryCell_none r log ts Hts Ef) as Hc.
    split; [|done].
    split; [|done].
    intros _ e Hin Hst.
    apply in_rev in Hin.
    pose proof (find_none _ _ Ef e Hin) as Hn. unfold stamped in Hn.
    by rewrite bool_decide_eq_true_2 in Hn.
Qed.

(** C8.  The text that [buildHistoryTable] returns is empty when it has no
    row, and otherwise the heading, the two header lines and the rows, one
    to a line.  It has one row for each entry of the primary log that
    carries a timestamp and a job count, in the order of the log: the
    timestamp, the link of the primary commit with its count, and the cells
    of the two secondary targets.  The cell of a secondary target is the
    placeholder exactly when no entry of its log has the timestamp of the
    row; otherwise it is the link of the last entry of its log with that
    timestamp, followed by the count of that entry or a question mark.  A
    log that cannot be read is the empty log, as is a blank one; a log that
    can be read has one entry for each line of the trimmed output of git,
    with the hash before the first bar and the message after the second. *)
Theorem buildHistoryTable_rows :
  let mainLog := readGitLog main_repo HISTORY_LIMIT in
  let emeaLog := readGitLog emea_repo HISTORY_LIMIT in
  let apacLog := readGitLog apac_repo HISTORY_LIMIT in
  let link := fun (r : Repo) (e : LogEntry) (n : jsstring) =>
    js "[`" ++ slice0 7 (hash e) ++ js "`](" ++ GITHUB_REPOS r
      ++ js "/commit/" ++ hash e ++ js ") " ++ n in
  let cellOf := fun (r : Repo) (log : list LogEntry) (ts cell : jsstring) =>
    (cell = [8212%N]
     <-> forall e, In e log -> extractTimestamp (message e) <> Some ts)
    /\ (cell <> [8212%N] ->
        exists pre e post,
          log = pre ++ e :: post
          /\ extractTimestamp (message e) = Some ts
          /\ Forall (fun e' => extractTimestamp (message e') <> Some ts) post
          /\ cell = link r e (countOr e)) in
  exists rows : list jsstring,
    buildHistoryTable
    = match rows with
      | [] => []
      | _ => js "## Update History" ++ [10%N; 10%N]
               ++ js "| Time (UTC) | Main | EMEA | APAC |" ++ [10%N]
               ++ js "|---|---|---|---|" ++ [10%N]
               ++ join [10%N] rows ++ [10%N]
      end
    /\ Forall2
         (fun e row =>
            exists ts n emeaCell apacCell,
              ts <> [] /\ n <> []
              /\ extractTimestamp (message e) = Some ts
              /\ extractJobCount (message e) = Some n
              /\ cellOf emea_repo emeaLog ts emeaCell
              /\ cellOf apac_repo apacLog ts apacCell
              /\ row = js "| " ++ ts ++ js " | " ++ link main_repo e n
                         ++ js " | " ++ emeaCell ++ js " | " ++ apacCell
                         ++ js " |")
         (List.filter dataCommit mainLog) rows
    /\ (forall r limit, git_log r limit = None -> readGitLog r limit = [])
    /\ (forall r limit out, git_log r limit = Some out ->
          (trim out = [] -> readGitLog r limit = [])
          /\ (trim out <> [] ->
              Forall2
                (fun line e =>
                   forall h d msg,
                     line = h ++ [124%N] ++ d ++ [124%N] ++ msg ->
                     124%N ∉ h -> 124%N ∉ d ->
                     e = mkEntry h (Some d) msg)
                (split 10 (trim out)) (readGitLog r limit))).
Proof.
  intros mainLog emeaLog apacLog link cellOf.
  exists (historyRows mainLog emeaLog apacLog). split_and!.
  - unfold buildHistoryTable, renderHistory.
    fold mainLog emeaLog apacLog.
    by destruct (historyRows mainLog emeaLog apacLog).
  - eapply Forall2_impl; [apply historyRows_data|].
    intros e row (ts & n & Hts & Hn & Het & Hen & ->).
    exists ts, n, (secondaryCell emea_repo (indexByTs emeaLog) ts),
      (secondaryCell apac_repo (indexByTs apacLog) ts).
    split_and!; try done.
    + apply (secondaryCell_of_log emea_repo emeaLog ts Hts).
    + apply (secondaryCell_of_log apac_repo apacLog ts Hts).
  - intros r limit Hg. unfold readGitLog. by rewrite Hg.
  - intros r limit out Hg. unfold readGitLog. rewrite Hg.
    split; [by intros ->|].
    intros Hne. destruct (trim out) as [|c raw] eqn:E; [done|].
    apply Forall2_fmap_r, Forall_Forall2_diag, Forall_forall.
    intros line _ h d msg -> Hh Hd. by apply parseLogLine_fields.
Qed.

(** ** Escaping, slugs and links *)

Lemma escUnit_no_lf c : Forall (fun u => u <> 10%N) (escUnit c).
Proof.
  unfold escUnit. destruct (c =? 124)%N eqn:E1; [by repeat constructor|].
  destruct (c =? 10)%N eqn:E2; [by repeat constructor|].
  apply N.eqb_neq in E2. by repeat constructor.
Qed.

Lemma esc_units_pipes l :
  forall pre post,
    concat (map escUnit l) = pre ++ 124%N :: post ->
    exists pre', pre = pre' ++ [92%N].
Proof.
  induction l as [|c l IH]; intros pre post H.
  - destruct pre; discriminate.
  - cbn [map concat] in H. unfold escUnit in H.
    destruct (c =? 124)%N eqn:E1.
    + destruct pre as [|a [|b pre]]; cbn in H.
      * discriminate.
      * simplify_eq. by exists [].
      * injection H as <- <- H. destruct (IH _ _ H) as [pre' ->].
        by exists (92%N :: 124%N :: pre').
    + apply N.eqb_neq in E1. destruct (c =? 10)%N.
      * destruct pre as [|a pre]; cbn in H; [discriminate|].
        injection H as <- H. destruct (IH _ _ H) as [pre' ->].
        by exists (32%N :: pre').
      * destruct pre as [|a pre]; cbn in H; [congruence|].
        injection H as <- H. destruct (IH _ _ H) as [pre' ->].
        by exists (c :: pre').
Qed.

Lemma esc_units_clean s :
  Forall (fun c => c <> 124%N /\ c <> 10%N) s -> concat (map escUnit s) = s.
Proof.
  induction 1 as [|c s [H1 H2] _ IH]; [done|].
  cbn [map concat]. unfold escUnit at 1.
  rewrite (proj2 (N.eqb_neq c 124) H1), (proj2 (N.eqb_neq c 10) H2).
  cbn [app]. by rewrite IH.
Qed.

(** What [esc] gives has no line feed, and each of its pipes comes right
    after a backslash; a text without pipe and line feed is left as it
    is, and a missing text is the empty text. *)
Theorem esc_escapes_pipes (str : option jsstring) :
  Forall (fun u => u <> 10%N) (esc str)
  /\ (forall pre post, esc str = pre ++ 124%N :: post ->
        exists pre', pre = pre' ++ [92%N])
  /\ (forall s, str = Some s ->
        Forall (fun c => c <> 124%N /\ c <> 10%N) s -> esc str = s)
  /\ (str = None -> esc str = []).
Proof.
  split_and!.
  - unfold esc. apply Forall_concat, Forall_map, Forall_forall.
    intros c _. apply escUnit_no_lf.
  - apply esc_units_pipes.
  - intros s -> Hs. unfold esc.
    destruct s as [|c s]; [done|]. by apply esc_units_clean.
  - by intros ->.
Qed.

Lemma dashRunsFrom_units b s :
  Forall (fun c => isSlugUnit c = true \/ c = dash) (dashRunsFrom b s).
Proof.
  revert b. induction s as [|c r IH]; intros b; cbn; [constructor|].
  destruct (isSlugUnit c) eqn:E; [constructor; [by left|apply IH]|].
  destruct b; [apply IH|]. constructor; [by right|apply IH].
Qed.

Lemma dashRunsFrom_shape s :
  forall b,
    noDoubleDash (dashRunsFrom b s)
    /\ (b = true -> head (dashRunsFrom b s) <> Some dash).
Proof.
  induction s as [|c r IH]; intros b; cbn [dashRunsFrom].
  - split; [done|]. intros _. done.
  - destruct (isSlugUnit c) eqn:E.
    + destruct (IH false) as [Hn _]. split.
      * cbn. destruct (dashRunsFrom false r) eqn:Er; [done|]. split; [|done].
        intros ->. discriminate E.
      * intros _. cbn. intros [= ->]. discriminate E.
    + destruct b.
      * apply IH.
      * destruct (IH true) as [Hn Hh]. split; [|done].
        cbn. destruct (dashRunsFrom true r) eqn:Er; [done|]. split; [|done].
        intros _ ->. by apply Hh.
Qed.

Lemma noDoubleDash_app_l s t : noDoubleDash (s ++ t) -> noDoubleDash s.
Proof.
  induction s as [|a [|b s] IH]; cbn; try done.
  intros [H1 H2]. split; [done|]. apply IH. exact H2.
Qed.

Lemma noDoubleDash_app_r s t : noDoubleDash (s ++ t) -> noDoubleDash t.
Proof.
  induction s as [|a s IH]; [done|].
  intros H. apply IH. cbn in H. destruct (s ++ t); [done|]. by destruct H.
Qed.

Lemma dropWhile_suffix {A} (p : A -> bool) l :
  exists pre, l = pre ++ dropWhile p l /\ Forall (fun x => p x = true) pre.
Proof.
  induction l as [|x l (pre & IH & Hp)]; [by exists []|].
  cbn. destruct (p x) eqn:E.
  - exists (x :: pre). split; [simpl; by f_equal|by constructor].
  - by exists [].
Qed.

Lemma dropWhile_head {A} (p : A -> bool) l x :
  head (dropWhile p l) = Some x -> p x = false.
Proof.
  induction l as [|y l IH]; cbn; [done|].
  destruct (p y) eqn:E; [done|]. by intros [= <-].
Qed.

Lemma stripDashes_split s :
  exists pre post,
    s = pre ++ stripDashes s ++ post
    /\ Forall (eq dash) pre /\ Forall (eq dash) post.
Proof.
  unfold stripDashes.
  destruct (dropWhile_suffix (N.eqb dash) s) as (pre & Hs & Hpre).
  destruct (dropWhile_suffix (N.eqb dash) (rev (dropWhile (N.eqb dash) s)))
    as (post & Hr & Hpost).
  exists pre, (rev post). split_and!.
  - rewrite Hs at 1. f_equal.
    rewrite <- (rev_involutive (dropWhile (N.eqb dash) s)) at 1.
    rewrite Hr at 1. by rewrite rev_app_distr.
  - eapply Forall_impl; [exact Hpre|]. intros x Hx. by apply N.eqb_eq in Hx.
  - apply Forall_rev. eapply Forall_impl; [exact Hpost|].
    intros x Hx. by apply N.eqb_eq in Hx.
Qed.

Lemma stripDashes_head s : head (stripDashes s) <> Some dash.
Proof.
  unfold stripDashes. intros H.
  set (d := dropWhile (N.eqb dash) s) in *.
  destruct (dropWhile_suffix (N.eqb dash) (rev d)) as (post & Hr & _).
  assert (d = rev (dropWhile (N.eqb dash) (rev d)) ++ rev post) as Hd.
  { rewrite <- (rev_involutive d) at 1. rewrite Hr at 1.
    by rewrite rev_app_distr. }
  destruct (rev (dropWhile (N.eqb dash) (rev d))) as [|x l] eqn:E; [done|].
  cbn in H. injection H as ->.
  assert (head d = Some dash) as Hh by (by rewrite Hd).
  apply dropWhile_head in Hh. by rewrite N.eqb_refl in Hh.
Qed.

Lemma dashRunsFrom_keeps b s :
  Exists (fun c => isSlugUnit c = true) s ->
  Exists (fun c => isSlugUnit c = true) (dashRunsFrom b s).
Proof.
  revert b. induction s as [|c r IH]; intros b H; [inversion H|].
  cbn. destruct (isSlugUnit c) eqn:E; [by left|].
  inversion H as [? ? Hc|? ? Hr]; subst; [congruence|].
  destruct b; [by apply IH|]. right. by apply IH.
Qed.

Lemma dropWhile_keeps {A} (p q : A -> bool) l :
  (forall x, q x = true -> p x = false) ->
  Exists (fun c => q c = true) l -> Exists (fun c => q c = true) (dropWhile p l).
Proof.
  intros Hpq. induction l as [|x l IH]; intros H; [inversion H|].
  cbn. destruct (p x) eqn:E; [|exact H].
  inversion H as [? ? Hx|? ? Hl]; subst; [|by apply IH].
  apply Hpq in Hx. congruence.
Qed.

Lemma slug_not_dash x : isSlugUnit x = true -> (dash =? x)%N = false.
Proof.
  intros H. apply N.eqb_neq. intros <-. discriminate H.
Qed.

Lemma stripDashes_keeps s :
  Exists (fun c => isSlugUnit c = true) s ->
  Exists (fun c => isSlugUnit c = true) (stripDashes s).
Proof.
  intros H. unfold stripDashes.
  apply Exists_rev, (dropWhile_keeps _ isSlugUnit); [apply slug_not_dash|].
  apply Exists_rev, (dropWhile_keeps _ isSlugUnit); [apply slug_not_dash|done].
Qed.

Lemma slugify_nonempty text :
  Exists (fun c => isSlugUnit c = true) (toLowerCase text) -> slugify text <> [].
Proof.
  intros H. unfold slugify, slice0.
  apply (dashRunsFrom_keeps false), stripDashes_keeps in H.
  fold (dashRuns (toLowerCase text)) in H.
  destruct (stripDashes (dashRuns (toLowerCase text))); [inversion H|done].
Qed.

Lemma toLowerCase_app s t :
  toLowerCase (s ++ t) = toLowerCase s ++ toLowerCase t.
Proof. unfold toLowerCase. by rewrite map_app, concat_app. Qed.

(** A slug has at most 80 units, all of them lower-case letters, digits
    or dashes; it does not begin with a dash and has no two dashes in a
    row; and it is not empty when the text has a letter or digit that
    lower-cases to [a-z0-9]. *)
Theorem slugify_shape (text : jsstring) :
  (length (slugify text) <= 80)%nat
  /\ Forall (fun c => isSlugUnit c = true \/ c = dash) (slugify text)
  /\ head (slugify text) <> Some dash
  /\ (forall pre post, slugify text <> pre ++ dash :: dash :: post)
  /\ (Exists (fun c => isSlugUnit c = true) (toLowerCase text) ->
      slugify text <> []).
Proof.
  split_and!; [| | | |apply slugify_nonempty].
  all: unfold slugify, slice0.
  all: set (d := dashRuns (toLowerCase text)).
  all: destruct (stripDashes_split d) as (pre & post & Hd & _ & _).
  all: assert (Forall (fun c => isSlugUnit c = true \/ c = dash) d) as Hu
         by apply dashRunsFrom_units.
  all: assert (noDoubleDash d) as Hn by apply dashRunsFrom_shape.
  all: rewrite Hd in Hu, Hn.
  all: apply Forall_app in Hu as [_ Hu]; apply Forall_app in Hu as [Hu _].
  all: apply noDoubleDash_app_r, noDoubleDash_app_l in Hn.
  - rewrite length_take. lia.
  - rewrite <- (take_drop 80 (stripDashes d)) in Hu.
    by apply Forall_app in Hu as [Hu _].
  - pose proof (stripDashes_head d) as Hh.
    destruct (stripDashes d); [done|]. done.
  - intros p q Heq.
    rewrite <- (take_drop 80 (stripDashes d)) in Hn.
    apply noDoubleDash_app_l in Hn. rewrite Heq in Hn.
    apply noDoubleDash_app_r in Hn. cbn in Hn.
    by destruct Hn as [Hn _]; apply Hn.
Qed.

(** The link of a job always has a slug: the text that [jobUrl] slugs holds
    the word [at], so the slug is never empty and the branch for an empty
    slug is never taken. *)
Theorem jobUrl_has_slug (job : Job) :
  slugify (tmplS (title job) ++ js " at " ++ tmplS (company job)) <> []
  /\ jobUrl job
     = js "https://wagey.gg/jobs/" ++ tmplS (id_ job) ++ js "-"
         ++ slugify (tmplS (title job) ++ js " at " ++ tmplS (company job))
         ++ js "?ref=github".
Proof.
  assert (slugify (tmplS (title job) ++ js " at " ++ tmplS (company job)) <> [])
    as Hne.
  { apply slugify_nonempty. rewrite !toLowerCase_app.
    apply Exists_app. right. apply Exists_app. left.
    right. by left. }
  split; [exact Hne|]. unfold jobUrl.
  destruct (slugify _); [done|]. by rewrite <- !app_assoc.
Qed.

(** The age of a record from one hour on: whole hours below a day, whole
    days from a day on. *)
Theorem fmtAge_hours_and_days (s : jsstring) (d : JsDate) :
  s <> [] -> newDate s = Some d ->
  (3600000 <= now - getTime d < 86400000 ->
     fmtAge (Some s) = numToString ((now - getTime d) / 3600000) ++ js "h")
  /\ (86400000 <= now - getTime d ->
     fmtAge (Some s) = numToString ((now - getTime d) / 86400000) ++ js "d").
Proof.
  intros Hs Hd. destruct s as [|c r]; [done|].
  unfold fmtAge, timeOf. rewrite Hd.
  cbn [fmap option_fmap option_map].
  unfold Math_floor_div. change (1000 * 60 * 60) with 3600000.
  set (ms := now - getTime d).
  split; intros H.
  - assert (1 <= ms / 3600000 < 24) as [H1 H2].
    { split; [apply Z.div_le_lower_bound; lia|apply Z.div_lt_upper_bound; lia]. }
    rewrite (proj2 (Z.ltb_ge _ _) H1), (proj2 (Z.ltb_lt _ _) H2). done.
  - assert (24 <= ms / 3600000) as H1 by (apply Z.div_le_lower_bound; lia).
    rewrite (proj2 (Z.ltb_ge (ms / 3600000) 1) ltac:(lia)).
    rewrite (proj2 (Z.ltb_ge _ _) H1).
    rewrite Z.div_div by lia. change (3600000 * 24) with 86400000.
    destruct (ms / 86400000 =? 1) eqn:E; [|done].
    apply Z.eqb_eq in E. by rewrite E.
Qed.

(** ** The fetcher as a whole *)

Lemma parseLines_all lines :
  forall envs jobs meta,
    Forall2 (fun l e => parseLine l = Ok e) lines envs ->
    parseLines lines jobs meta
    = Ok (jobs ++ omap envelopeJob envs,
          match last (omap envelopeMeta envs) with
          | Some m => Some m
          | None => meta
          end).
Proof.
  induction lines as [|l lines IH]; intros envs jobs meta H.
  - inversion H; subst. cbn. by rewrite app_nil_r.
  - inversion H as [|? e ? envs' Hl Hrest]; subst.
    cbn [parseLines]. rewrite Hl.
    destruct e as [m|d|]; rewrite (IH _ _ _ Hrest);
      cbn [omap list_omap envelopeJob envelopeMeta].
    + f_equal. f_equal.
      destruct (omap envelopeMeta envs') as [|m' ms] eqn:E; [done|].
      change (last (m :: m' :: ms)) with (last (m' :: ms)).
      by destruct (last (m' :: ms)) eqn:El; [|by apply last_None in El].
    + by rewrite <- app_assoc.
    + done.
Qed.

(** A 2xx body whose lines all parse ends the fetch at once: the jobs are
    the payloads of the job lines, in the order of the body, and the meta
    object is the one of the last meta line; lines of any other type and
    blank lines are passed over. *)
Theorem fetchLoop_feed (left attempt : nat) (status : Z) (text : jsstring)
    (envs : list Envelope) :
  fetch attempt = Response status (Some text) ->
  ok status = true ->
  Forall2 (fun l e => parseLine l = Ok e)
    (List.filter (fun l => nonEmpty (trim l)) (split 10 text)) envs ->
  fetchLoop (S left) attempt
  = ([EvFetch attempt],
     Ok (Some (omap envelopeJob envs, last (omap envelopeMeta envs)))).
Proof.
  intros Hf Hok Hall. cbn [fetchLoop]. rewrite Hf, Hok. cbn [negb].
  unfold bodyLines. rewrite (parseLines_all _ envs [] None Hall).
  cbn [app]. by destruct (last (omap envelopeMeta envs)).
Qed.

Lemma fetchLoop_step left attempt :
  fetchLoop (S left) attempt
  = match attemptResult attempt with
    | Ok r => ([EvFetch attempt], Ok (Some r))
    | Throw e =>
        if (attempt <? MAX_RETRIES)%nat then
          (EvFetch attempt :: EvSleep (backoff attempt)
             :: (fetchLoop left (S attempt)).1,
           (fetchLoop left (S attempt)).2)
        else ([EvFetch attempt], Throw e)
    end.
Proof.
  cbn [fetchLoop]. unfold attemptResult.
  destruct (fetchLoop left (S attempt)) as [tr r].
  destruct (fetch attempt) as [reason|status body]; [done|].
  destruct (ok status); cbn [negb].
  - destruct body as [text|]; [|done].
    by destruct (parseLines (bodyLines text) [] None).
  - destruct ((500 <=? status) || (status =? 429));
      destruct (attempt <? MAX_RETRIES)%nat; done.
Qed.

Lemma fetchLoop_first_success left :
  forall attempt k r,
    (attempt + left = S MAX_RETRIES)%nat ->
    (attempt <= k <= MAX_RETRIES)%nat ->
    attemptResult k = Ok r ->
    (forall n, (attempt <= n < k)%nat -> exists e, attemptResult n = Throw e) ->
    fetchLoop left attempt
    = (flat_map (fun n => [EvFetch n; EvSleep (backoff n)])
         (seq attempt (k - attempt)) ++ [EvFetch k],
       Ok (Some r)).
Proof.
  induction left as [|left IH]; intros attempt k r Hsum Hk Hok Hfail.
  - unfold MAX_RETRIES in *. lia.
  - rewrite fetchLoop_step.
    destruct (decide (attempt = k)) as [->|Hne].
    + rewrite Hok. by rewrite Nat.sub_diag.
    + destruct (Hfail attempt ltac:(lia)) as [e He]. rewrite He.
      rewrite (proj2 (Nat.ltb_lt attempt MAX_RETRIES)) by lia.
      rewrite (IH (S attempt) k r);
        [|lia|lia|done|intros n Hn; apply Hfail; lia].
      cbn [fst snd]. replace (k - attempt)%nat with (S (k - S attempt)) by lia.
      done.
Qed.

Lemma fetchLoop_all_fail left :
  forall attempt,
    (attempt + left = S MAX_RETRIES)%nat -> (1 <= left)%nat ->
    (forall n, (attempt <= n <= MAX_RETRIES)%nat ->
               exists e, attemptResult n = Throw e) ->
    exists e, attemptResult MAX_RETRIES = Throw e
      /\ fetchLoop left attempt
         = (flat_map (fun n => [EvFetch n; EvSleep (backoff n)])
              (seq attempt (MAX_RETRIES - attempt)) ++ [EvFetch MAX_RETRIES],
            Throw e).
Proof.
  induction left as [|left IH]; intros attempt Hsum Hleft Hfail; [lia|].
  rewrite fetchLoop_step.
  destruct (Hfail attempt ltac:(unfold MAX_RETRIES in *; lia)) as [e He].
  rewrite He. destruct (attempt <? MAX_RETRIES)%nat eqn:E.
  - apply Nat.ltb_lt in E.
    destruct (IH (S attempt)) as (e' & He' & Hloop);
      [lia|unfold MAX_RETRIES in *; lia|intros n Hn; apply Hfail; lia|].
    exists e'. split; [done|]. rewrite Hloop. cbn [fst snd].
    replace (MAX_RETRIES - attempt)%nat with (S (MAX_RETRIES - S attempt))
      by lia.
    done.
  - apply Nat.ltb_ge in E.
    assert (attempt = MAX_RETRIES) as -> by (unfold MAX_RETRIES in *; lia).
    exists e. split; [done|]. by rewrite Nat.sub_diag.
Qed.

(** [fetchJobs] returns the feed of the first of its five attempts that
    succeeds, after a fetch and a sleep of 3000 * 2^(n-1) ms for each
    attempt [n] before it; when no attempt succeeds it throws the error of
    the fifth.  In every case it fetches between one and five times and
    sleeps at most 45 seconds in all. *)
Theorem fetchJobs_first_success_or_last_error :
  let retryTrace := fun k : nat =>
    flat_map (fun n => [EvFetch n; EvSleep (3000 * 2 ^ (Z.of_nat n - 1))])
      (seq 1 (k - 1)) ++ [EvFetch k] in
  (forall k r,
     (1 <= k <= 5)%nat -> attemptResult k = Ok r ->
     (forall n, (1 <= n < k)%nat -> exists e, attemptResult n = Throw e) ->
     fetchJobs = (retryTrace k, Ok (Some r)))
  /\ ((forall n, (1 <= n <= 5)%nat -> exists e, attemptResult n = Throw e) ->
      exists e, attemptResult 5%nat = Throw e
        /\ fetchJobs = (retryTrace 5%nat, Throw e))
  /\ (1 <= fetchCount fetchJobs.1 <= 5)%nat
  /\ 0 <= sleepTotal fetchJobs.1 <= 45000.
Proof.
  intros retryTrace. split_and!.
  - intros k r Hk Hok Hfail. unfold fetchJobs, retryTrace.
    by apply fetchLoop_first_success.
  - intros Hfail. unfold fetchJobs, retryTrace.
    apply fetchLoop_all_fail; [done|unfold MAX_RETRIES; lia|done].
  - unfold fetchJobs, MAX_RETRIES. rewrite !fetchLoop_step.
    repeat (destruct (attemptResult _)); vm_compute; lia.
  - unfold fetchJobs, MAX_RETRIES. rewrite !fetchLoop_step.
    repeat (destruct (attemptResult _)); vm_compute; lia.
  - unfold fetchJobs, MAX_RETRIES. rewrite !fetchLoop_step.
    repeat (destruct (attemptResult _)); vm_compute; congruence.
  - unfold fetchJobs, MAX_RETRIES. rewrite !fetchLoop_step.
    repeat (destruct (attemptResult _)); vm_compute; congruence.
Qed.

(** ** The run as a whole *)

(** A run that fetches a feed with at least one job, and whose grouping
    does not throw, ends with status 0; without the dry-run switch it makes
    the directory of each of nine files and writes the file, in the order
    of the three targets, each target getting the document and the export
    of its own jobs.  Every other run (a fetch that throws, an empty feed,
    a grouping that throws) ends with status 1 and writes nothing.  With
    the dry-run switch no run writes. *)
Theorem main_publishes_or_aborts :
  fetchTrace main = fetchJobs.1
  /\ (forall jobs meta groups,
        fetchJobs.2 = Ok (Some (jobs, meta)) -> jobs <> [] ->
        groupByRegion jobs = Ok groups ->
        let logos :=
          match meta with
          | Some m => default (fun _ => None) (companyLogos m)
          | None => fun _ => None
          end in
        exitCode main = 0
        /\ (DRY_RUN = true -> effects main = [])
        /\ (DRY_RUN = false ->
            omap writtenPath (effects main)
            = [(main_repo, [js "README.md"]);
               (main_repo, [js "data"; js "jobs.json"]);
               (main_repo, [js "data"; js "commit-msg.txt"]);
               (emea_repo, [js "README.md"]);
               (emea_repo, [js "data"; js "jobs.json"]);
               (emea_repo, [js "data"; js "commit-msg.txt"]);
               (apac_repo, [js "README.md"]);
               (apac_repo, [js "data"; js "jobs.json"]);
               (apac_repo, [js "data"; js "commit-msg.txt"])]
            /\ Forall2
                 (fun mk wr =>
                    exists r path content,
                      mk = Mkdir r (removelast path)
                      /\ wr = WriteFile r path content)
                 (List.filter (fun e => bool_decide (is_Some (madeDir e)))
                    (effects main))
                 (List.filter (fun e => bool_decide (is_Some (writtenPath e)))
                    (effects main))
            /\ forall fs : FS,
                 after fs main main_repo [js "README.md"]
                 = Some (DocMain (mainReadme groups jobs logos
                                    buildHistoryTable))
                 /\ after fs main emea_repo [js "README.md"]
                    = Some (DocRegion
                              (regionReadme (js "EMEA")
                                 (js "Europe & Middle East") (EMEA groups)
                                 groups logos buildHistoryTable))
                 /\ after fs main apac_repo [js "README.md"]
                    = Some (DocRegion
                              (regionReadme (js "APAC") (js "Asia-Pacific")
                                 (APAC groups) groups logos
                                 buildHistoryTable))
                 /\ after fs main main_repo [js "data"; js "jobs.json"]
                    = Some (Json (buildDataJson jobs))
                 /\ after fs main emea_repo [js "data"; js "jobs.json"]
                    = Some (Json (buildDataJson (EMEA groups)))
                 /\ after fs main apac_repo [js "data"; js "jobs.json"]
                    = Some (Json (buildDataJson (APAC groups)))))
  /\ ((forall jobs meta,
         fetchJobs.2 = Ok (Some (jobs, meta)) ->
         jobs = [] \/ exists e, groupByRegion jobs = Throw e) ->
      exitCode main = 1 /\ effects main = []).
Proof.
  unfold after, main.
  destruct fetchJobs as [tr fetched] eqn:Ef. cbn [fst snd].
  split_and!.
  - destruct fetched as [[[jobs meta]|]|e]; [|done|done].
    destruct (length jobs =? 0)%nat; [done|].
    by destruct (groupByRegion jobs).
  - intros jobs meta groups -> Hne Hg.
    destruct jobs as [|j jobs]; [done|].
    cbn [length Nat.eqb]. rewrite Hg. cbn [exitCode effects].
    unfold writeFile.
    split_and!; [done|by intros ->|].
    intros ->. split_and!; [done| |done].
    repeat (constructor; [by eexists _, _, _|]). constructor.
  - intros Hno.
    destruct fetched as [[[jobs meta]|]|e]; [|done|done].
    destruct (Hno jobs meta eq_refl) as [->|[e He]]; [done|].
    destruct (length jobs =? 0)%nat; [done|]. by rewrite He.
Qed.

End Runtime.

(** * The properties at concrete inputs *)

(** [fmtSalary_forms] at records with both bounds equal, both different, the
    lower one alone, the upper one alone, and none. *)
Lemma fmtSalary_forms_witness :
  fmtSalary (withBounds (Some 120000) (Some 120000) devJob) = js "$120k/year"
  /\ fmtSalary (withBounds (Some 90000) (Some 120000) devJob)
     = js "$90k" ++ enDash ++ js "$120k/year"
  /\ fmtSalary (withBounds (Some 90000) None devJob) = js "$90k+/year"
  /\ fmtSalary (withBounds None (Some 120000) devJob) = js "$120k/year"
  /\ fmtSalary devJob = [].
Proof.
  split_and!.
  - exact (proj1 (fmtSalary_forms (withBounds (Some 120000) (Some 120000) devJob))
             eq_refl eq_refl eq_refl).
  - refine (proj1 (proj2 (fmtSalary_forms
                            (withBounds (Some 90000) (Some 120000) devJob)))
              eq_refl eq_refl _).
    discriminate.
  - exact (proj1 (proj2 (proj2 (fmtSalary_forms
                                  (withBounds (Some 90000) None devJob))))
             eq_refl eq_refl).
  - exact (proj1 (proj2 (proj2 (proj2 (fmtSalary_forms
                                         (withBounds None (Some 120000) devJob)))))
             eq_refl eq_refl).
  - exact (proj1 (proj2 (proj2 (proj2 (proj2 (fmtSalary_forms devJob)))))
             eq_refl eq_refl).
Defined.

(** C9 as stated fails on a record with the upper bound alone: the claim
    gives a single bound the suffix [+], the code gives it to the lower bound
    only. *)
Lemma fmtSalary_upper_bound_counterexample :
  fmtSalary (withBounds None (Some 120000) devJob) = js "$120k/year"
  /\ fmtSalary (withBounds None (Some 120000) devJob)
     <> fmtK 120000 ++ js "+/year".
Proof. split; [reflexivity|]. vm_compute. discriminate. Qed.

(** [fmtAge_under_one_hour] one minute after the timestamp, and five seconds
    before it. *)
Lemma fmtAge_under_one_hour_witness :
  demoDate [] = None
  /\ demoTime + 60000 - demoTime < 3600000
  /\ fmtAge demoDate (demoTime + 60000) (Some demoStamp) = js "<1h"
  /\ demoTime - 5000 - demoTime < 3600000
  /\ fmtAge demoDate (demoTime - 5000) (Some demoStamp) = js "<1h"
  /\ fmtAge demoDate demoTime None = [].
Proof.
  split_and!; [reflexivity|reflexivity| |reflexivity| |].
  - exact (proj1 (proj2 (fmtAge_under_one_hour demoDate (demoTime + 60000)
                    (Some demoStamp) eq_refl))
             demoStamp (mkDate demoTime 26 1 2026 4 5) eq_refl eq_refl eq_refl).
  - exact (proj1 (proj2 (fmtAge_under_one_hour demoDate (demoTime - 5000)
                    (Some demoStamp) eq_refl))
             demoStamp (mkDate demoTime 26 1 2026 4 5) eq_refl eq_refl eq_refl).
  - exact (proj1 (fmtAge_under_one_hour demoDate demoTime None eq_refl) eq_refl).
Defined.

(** [groupByRegion_buckets] on a feed with a garbage title, a record that
    is not remote, a remote record without region, a record of an unknown
    region and records of two regions. *)
Lemma groupByRegion_buckets_witness :
  exists g,
    groupByRegion
      [careersJob; officeJob; devJob; withRegion (js "EMEA") devJob;
       withRegion (js "Mars") devJob; withRegion (js "LATAM") teaserJob]
    = Ok g
    /\ WW g = [devJob]
    /\ EMEA g = [withRegion (js "EMEA") devJob]
    /\ LATAM g = [withRegion (js "LATAM") teaserJob]
    /\ APAC g = [] /\ NA g = [].
Proof.
  destruct (groupByRegion_buckets
              [careersJob; officeJob; devJob; withRegion (js "EMEA") devJob;
               withRegion (js "Mars") devJob;
               withRegion (js "LATAM") teaserJob]) as (g & Hg & Hb).
  - repeat constructor; intros _; vm_compute; intros H;
      repeat (inversion H as [|? ? ? H']; subst; clear H; rename H' into H).
  - exists g. split; [exact Hg|].
    split_and!; [exact (Hb bWW)|exact (Hb bEMEA)|exact (Hb bLATAM)
                 |exact (Hb bAPAC)|exact (Hb bNA)].
Defined.

(** C1, where the code departs from it.  A 404 in the first attempt is
    thrown inside the [try] block and caught by its [catch]: the fetcher
    sleeps and fetches again, and here it returns the feed of the second
    attempt.  A server that answers 404 to every attempt is fetched five
    times. *)
Theorem fetchJobs_retries_404 :
  fetchJobs demoParse once404
  = ([EvFetch 1; EvSleep 3000; EvFetch 2], Ok (Some ([], None)))
  /\ fetchJobs demoParse always404
     = ([EvFetch 1; EvSleep 3000; EvFetch 2; EvSleep 6000;
         EvFetch 3; EvSleep 12000; EvFetch 4; EvSleep 24000; EvFetch 5],
        Throw (ApiError 404 (js "Not Found"))).
Proof. split; vm_compute; reflexivity. Qed.

(** C2 as stated fails on a body cut after its first character: the line
    does not parse, and the fetcher sleeps, fetches again and returns the
    feed of the second attempt. *)
Lemma parse_failure_retried_counterexample :
  In (js "{") (bodyLines (js "{"))
  /\ demoParse (js "{") = Throw (ParseFailure (js "{"))
  /\ fetchJobs demoParse onceCut
     = ([EvFetch 1; EvSleep 3000; EvFetch 2], Ok (Some ([], None))).
Proof. split_and!; [by left| |]; vm_compute; reflexivity. Qed.

(** [fetchLoop_parse_failure] on a fetcher whose first body is cut, which
    sleeps and returns the feed of the second attempt, and on a fetcher
    whose bodies hold a line that parses and then two that do not: it goes
    on after the fourth attempt, and the fifth attempt throws the error of
    the first of the two lines. *)
Lemma fetchLoop_parse_failure_witness :
  split 10 cutBody = [js "{}"; js "{"; js "["]
  /\ demoParse (js "{") = Throw (ParseFailure (js "{"))
  /\ demoParse (js "[") = Throw (ParseFailure (js "["))
  /\ fetchLoop demoParse alwaysCut 1 5
     = ([EvFetch 5], Throw (ParseFailure (js "{")))
  /\ fetchLoop demoParse alwaysCut 2 4
     = ([EvFetch 4; EvSleep 24000; EvFetch 5], Throw (ParseFailure (js "{")))
  /\ fetchLoop demoParse onceCut 5 1
     = ([EvFetch 1; EvSleep 3000; EvFetch 2], Ok (Some ([], None))).
Proof.
  assert (fetchLoop demoParse alwaysCut 1 5
          = ([EvFetch 5], Throw (ParseFailure (js "{")))) as Hlast.
  { destruct (fetchLoop_parse_failure demoParse alwaysCut 0 5 200 cutBody
                (js "[") (ParseFailure (js "[")))
      as (pre & first & post & e1 & Hsplit & Hpre & Hfirst & _ & Hthrow);
      [reflexivity|reflexivity|right; right; left; reflexivity|discriminate
      |reflexivity|].
    change (List.filter (fun l => nonEmpty (trim l)) (split 10 cutBody))
      with [js "{}"; js "{"; js "["] in Hsplit.
    destruct pre as [|a [|b pre]].
    + injection Hsplit as <- _. discriminate Hfirst.
    + injection Hsplit as _ <- _.
      injection Hfirst as <-. apply Hthrow. unfold MAX_RETRIES. lia.
    + injection Hsplit as _ <- _.
      apply Forall_cons_1 in Hpre as [_ Hpre].
      apply Forall_cons_1 in Hpre as [[env Hb] _]. discriminate Hb. }
  split_and!; [reflexivity|reflexivity|reflexivity|exact Hlast| |].
  - destruct (fetchLoop_parse_failure demoParse alwaysCut 1 4 200 cutBody
                (js "[") (ParseFailure (js "[")))
      as (_ & _ & _ & _ & _ & _ & _ & Hgo & _);
      [reflexivity|reflexivity|right; right; left; reflexivity|discriminate
      |reflexivity|].
    rewrite Hgo by (unfold MAX_RETRIES; lia).
    rewrite Hlast. reflexivity.
  - destruct (fetchLoop_parse_failure demoParse onceCut 4 1 200 (js "{")
                (js "{") (ParseFailure (js "{")))
      as (_ & _ & _ & _ & _ & _ & _ & Hgo & _);
      [reflexivity|reflexivity|by left|discriminate|reflexivity|].
    rewrite Hgo by (unfold MAX_RETRIES; lia).
    reflexivity.
Defined.

(** [fetchJobs_exhausts_on_503] on the server that always answers 503. *)
Lemma fetchJobs_exhausts_on_503_witness :
  exists body5,
    always503 5 = Response 503 body5
    /\ fetchJobs demoParse always503
       = ([EvFetch 1; EvSleep 3000; EvFetch 2; EvSleep 6000;
           EvFetch 3; EvSleep 12000; EvFetch 4; EvSleep 24000; EvFetch 5],
          Throw (ApiError 503 (slice0 500 (default (js "(no body)") body5)))).
Proof.
  apply (fetchJobs_exhausts_on_503 demoParse always503).
  intros n _. exists (Some (js "Service Unavailable")). reflexivity.
Defined.

(** [main_empty_feed_aborts] on the server with an empty feed, without the
    dry-run switch. *)
Lemma main_empty_feed_aborts_witness :
  fetchJobs demoParse emptyFeed = ([EvFetch 1], Ok (Some ([], None)))
  /\ exitCode (main demoDate demoTime encodePlain demoGit enUS demoStamp
                 demoParse emptyFeed false) = 1
  /\ effects (main demoDate demoTime encodePlain demoGit enUS demoStamp
                demoParse emptyFeed false) = []
  /\ forall fs : FS,
       after fs (main demoDate demoTime encodePlain demoGit enUS demoStamp
                   demoParse emptyFeed false) = fs.
Proof.
  split; [reflexivity|].
  apply (main_empty_feed_aborts demoDate demoTime encodePlain demoGit enUS
           demoStamp demoParse emptyFeed false [EvFetch 1] None).
  reflexivity.
Defined.

(** C3 as stated fails on a bucket above the cap: 501 remote records give
    the heading [Remote Worldwide (501)] over a table of 500 rows. *)
Lemma heading_above_cap_counterexample :
  groupByRegion (repeat devJob 501) = Ok crowded
  /\ headingCount (regionSection demoDate demoTime encodePlain enUS crowded
                     noLogos bWW) = js "501"
  /\ table (regionSection demoDate demoTime encodePlain enUS crowded
              noLogos bWW)
     = join [10%N]
         (tableHeader
          ++ jobTableRows demoDate demoTime encodePlain (WW crowded) noLogos
               DEFAULT_LIMIT) ++ [10%N]
  /\ length (jobTableRows demoDate demoTime encodePlain (WW crowded) noLogos
               DEFAULT_LIMIT) = 500%nat
  /\ headingCount (regionSection demoDate demoTime encodePlain enUS crowded
                     noLogos bWW)
     <> enUS (length (jobTableRows demoDate demoTime encodePlain (WW crowded)
                        noLogos DEFAULT_LIMIT)).
Proof.
  split_and!.
  - vm_compute. reflexivity.
  - vm_compute. reflexivity.
  - unfold regionSection, jobTable. cbn [table bucket].
    destruct (shown demoDate (WW crowded) DEFAULT_LIMIT) eqn:E; [|done].
    apply (f_equal length) in E. rewrite shown_length in E.
    vm_compute in E. discriminate E.
  - rewrite jobTableRows_length. vm_compute. reflexivity.
  - rewrite jobTableRows_length. vm_compute. discriminate.
Qed.

(** [counts_match_rows] on a [WW] bucket of two records, one with salary:
    the heading quotes 2 over a table of two rows, and the summary quotes
    one record with salary. *)
Lemma counts_match_rows_witness :
  exists rendered : list Job,
    length rendered = 2%nat
    /\ length (List.filter hasSalary rendered) = 1%nat
    /\ table (regionSection demoDate demoTime encodePlain enUS small
                noLogos bWW)
       = join [10%N]
           (js "| Company | Role | Salary USD | Age | |"
            :: js "|---------|------|------------|-----|---|"
            :: map (jobRow demoDate demoTime encodePlain noLogos) rendered)
         ++ [10%N]
    /\ headingCount (regionSection demoDate demoTime encodePlain enUS small
                       noLogos bWW) = js "2"
    /\ rr_withSalary (regionReadme demoDate demoTime encodePlain enUS
                        demoStamp (js "WW") (js "Remote Worldwide")
                        (bucket bWW small) small noLogos []) = js "1".
Proof.
  destruct (counts_match_rows demoDate demoTime encodePlain enUS demoStamp
              small [] noLogos [] (js "WW") (js "Remote Worldwide") bWW)
    as (rendered & rest & Hperm & Hlen & Htab & _ & _ & _ & Hle & _).
  destruct Hle as (-> & Hhead & _ & Hsal & _);
    [vm_compute; lia|].
  rewrite app_nil_r in Hperm.
  assert (length rendered = 2%nat) as Hlen2 by exact Hlen.
  assert (length (List.filter hasSalary rendered) = 1%nat) as Hcount
    by (change (count hasSalary rendered = 1%nat);
        rewrite (count_perm hasSalary _ _ Hperm); reflexivity).
  exists rendered. split_and!.
  - exact Hlen2.
  - exact Hcount.
  - rewrite Htab. destruct rendered; [discriminate Hlen2|reflexivity].
  - rewrite Hhead, Hlen2. reflexivity.
  - rewrite Hsal, Hcount. reflexivity.
Defined.


(** [buildHistoryTable_rows] on two repositories that published at the same
    timestamp and a third that cannot be read: the table has one row, with
    the link of the second target and the placeholder for the third; the
    commit of the primary log without timestamp has no row. *)
Lemma buildHistoryTable_rows_witness :
  demoGit apac_repo HISTORY_LIMIT = None
  /\ readGitLog demoGit apac_repo HISTORY_LIMIT = []
  /\ length (readGitLog demoGit main_repo HISTORY_LIMIT) = 2%nat
  /\ buildHistoryTable demoGit
     = js "## Update History" ++ [10%N; 10%N]
         ++ js "| Time (UTC) | Main | EMEA | APAC |" ++ [10%N]
         ++ js "|---|---|---|---|" ++ [10%N]
         ++ js "| 26-Feb-2026 04:35 UTC | "
         ++ js "[`abcdef0`](https://github.com/7-of-9/wagey-gg-remote-tech-jobs/commit/abcdef0123) 21,024"
         ++ js " | "
         ++ js "[`eeeeeee`](https://github.com/7-of-9/wagey-gg-remote-tech-emea-jobs/commit/eeeeeeeeeee) 3"
         ++ js " | " ++ [8212%N] ++ js " |" ++ [10%N].
Proof.
  destruct (buildHistoryTable_rows demoGit)
    as (rows & Htab & Hrows & Hread & _).
  pose proof (Hread apac_repo HISTORY_LIMIT eq_refl) as Hapac.
  split_and!; [reflexivity|exact Hapac|vm_compute; reflexivity|].
  rewrite Htab. clear Htab.
  set (e0 := mkEntry (js "abcdef0123") (Some (js "2026-02-26"))
               (js "21,024 jobs | 5 with salary - 26-Feb-2026 04:35 UTC")).
  set (e1 := mkEntry (js "eeeeeeeeeee") (Some (js "2026-02-26"))
               (js "3 EMEA jobs | 26-Feb-2026 04:35 UTC")).
  assert (List.filter dataCommit (readGitLog demoGit main_repo HISTORY_LIMIT)
          = [e0]) as Hmain by (vm_compute; reflexivity).
  assert (readGitLog demoGit emea_repo HISTORY_LIMIT = [e1]) as Hemea
    by (vm_compute; reflexivity).
  rewrite Hmain, Hemea, Hapac in Hrows.
  apply Forall2_cons_inv_l in Hrows
    as (row & rest & (ts & n & emeaCell & apacCell & _ & _ & Hts & Hn & Hemeac
                      & Hapacc & ->) & Hrest & ->).
  apply Forall2_nil_inv_l in Hrest as ->.
  assert (ts = demoTs) as ->.
  { assert (extractTimestamp (message e0) = Some demoTs) as H0
      by (vm_compute; reflexivity).
    rewrite H0 in Hts. by injection Hts. }
  assert (n = js "21,024") as ->.
  { assert (extractJobCount (message e0) = Some (js "21,024")) as H0
      by (vm_compute; reflexivity).
    rewrite H0 in Hn. by injection Hn. }
  assert (apacCell = [8212%N]) as ->.
  { apply (proj1 Hapacc). intros e []. }
  assert (emeaCell
          = js "[`eeeeeee`](https://github.com/7-of-9/wagey-gg-remote-tech-emea-jobs/commit/eeeeeeeeeee) 3")
    as ->.
  { assert (extractTimestamp (message e1) = Some demoTs) as H1
      by (vm_compute; reflexivity).
    destruct Hemeac as [Hnone Hsome].
    destruct Hsome as (pre & e & post & Hlog & _ & _ & ->).
    - intros Hp. apply (proj1 Hnone Hp e1); [by left|exact H1].
    - destruct pre as [|a pre].
      + injection Hlog as <- _. vm_compute. reflexivity.
      + injection Hlog as _ Hlog. by destruct pre. }
  vm_compute. reflexivity.
Defined.

(** [fmtAge_hours_and_days] two hours and three days after the timestamp. *)
Lemma fmtAge_hours_and_days_witness :
  fmtAge demoDate (demoTime + 7200000) (Some demoStamp) = js "2h"
  /\ fmtAge demoDate (demoTime + 259200000) (Some demoStamp) = js "3d".
Proof.
  assert (demoStamp <> []) as Hs by discriminate.
  split.
  - rewrite (proj1 (fmtAge_hours_and_days demoDate (demoTime + 7200000)
                      demoStamp (mkDate demoTime 26 1 2026 4 5) Hs eq_refl)).
    + reflexivity.
    + cbn [getTime]. lia.
  - rewrite (proj2 (fmtAge_hours_and_days demoDate (demoTime + 259200000)
                      demoStamp (mkDate demoTime 26 1 2026 4 5) Hs eq_refl)).
    + reflexivity.
    + cbn [getTime]. lia.
Defined.

(** [fetchLoop_feed] on the feed of one job line and one line of no type,
    each followed by a line feed. *)
Lemma fetchLoop_feed_witness :
  fetchLoop demoParse oneJobFeed 5 1
  = ([EvFetch 1], Ok (Some ([devJob], None))).
Proof.
  apply (fetchLoop_feed demoParse oneJobFeed 4 1 200
           (jobLine ++ [10%N] ++ js "{}" ++ [10%N])
           [EnvJob devJob; EnvOther]); [reflexivity|reflexivity|].
  change (List.filter (fun l => nonEmpty (trim l))
            (split 10 (jobLine ++ [10%N] ++ js "{}" ++ [10%N])))
    with [jobLine; js "{}"].
  repeat constructor.
Defined.

(** [fetchJobs_first_success_or_last_error] on the server that answers 404
    once, and on the one that always answers 503. *)
Lemma fetchJobs_first_success_or_last_error_witness :
  fetchJobs demoParse once404
  = ([EvFetch 1; EvSleep 3000; EvFetch 2], Ok (Some ([], None)))
  /\ exists e,
       fetchJobs demoParse always503
       = ([EvFetch 1; EvSleep 3000; EvFetch 2; EvSleep 6000;
           EvFetch 3; EvSleep 12000; EvFetch 4; EvSleep 24000; EvFetch 5],
          Throw e).
Proof.
  pose proof (fetchJobs_first_success_or_last_error demoParse once404)
    as (Hfirst & _).
  pose proof (fetchJobs_first_success_or_last_error demoParse always503)
    as (_ & Hlast & _).
  split.
  - apply (Hfirst 2%nat ([], None)); [lia|reflexivity|].
    intros n Hn. assert (n = 1%nat) as -> by lia. by eexists.
  - destruct Hlast as (e & _ & He).
    + intros n _. by eexists.
    + exists e. exact He.
Defined.

(** [main_publishes_or_aborts] on the feed of one job, remote and without
    region: the overview target gets the export of the job, the target of
    [EMEA] an empty export. *)
Lemma main_publishes_or_aborts_witness :
  exitCode (main demoDate demoTime encodePlain demoGit enUS demoStamp
              demoParse oneJobFeed false) = 0
  /\ forall fs : FS,
       after fs (main demoDate demoTime encodePlain demoGit enUS demoStamp
                   demoParse oneJobFeed false) main_repo
         [js "data"; js "jobs.json"]
       = Some (Json (buildDataJson [devJob]))
       /\ after fs (main demoDate demoTime encodePlain demoGit enUS demoStamp
                      demoParse oneJobFeed false) emea_repo
            [js "data"; js "jobs.json"]
          = Some (Json []).
Proof.
  destruct (main_publishes_or_aborts demoDate demoTime encodePlain demoGit
              enUS demoStamp demoParse oneJobFeed false) as (_ & Hrun & _).
  destruct (Hrun [devJob] None (mkGroups [devJob] [] [] [] []))
    as (Hexit & _ & Hwrite); [reflexivity|discriminate|reflexivity|].
  split; [exact Hexit|].
  intros fs. destruct (Hwrite eq_refl) as (_ & _ & Hfs).
  destruct (Hfs fs) as (_ & _ & _ & Hmain & Hemea & _).
  split; [exact Hmain|exact Hemea].
Defined.

(** A run on a feed of one job: the nine files are written, in the order of
    the targets, and the process ends with status 0. *)
Example main_publishes_one_job :
  let run := main demoDate demoTime encodePlain demoGit enUS demoStamp
               demoParse oneJobFeed false in
  exitCode run = 0
  /\ fetchTrace run = [EvFetch 1]
  /\ omap (fun e => match e with
                    | WriteFile r path _ => Some (r, path)
                    | Mkdir _ _ => None
                    end) (effects run)
     = [(main_repo, README_md); (main_repo, jobs_json);
        (main_repo, commit_msg_txt); (emea_repo, README_md);
        (emea_repo, jobs_json); (emea_repo, commit_msg_txt);
        (apac_repo, README_md); (apac_repo, jobs_json);
        (apac_repo, commit_msg_txt)].
Proof. vm_compute. split_and!; reflexivity. Qed.
